(** * Time-on-task: session reconstruction and duration aggregation

    A shallow embedding of the three entry points of the repository
    ([src/perStudent.js], [combined.js], [src/perClass.js]) and of the
    fragment of JavaScript they rely on, followed by the properties of
    the specification that concern them.

    Conventions of the embedding.
    - [client_time] values are integers ([Z], seconds).  A JavaScript
      number represents every integer below 2^53 exactly, and on those
      [-], [+], [>], [<] and [Math.max] are the integer operations.
      Fractional timestamps and NaN are outside the model.
    - [userId] and [classId] are the INTEGER columns of the event table,
      modelled as [Z]; a NULL identifier is outside the model.
    - [activeSessions] is only read, written and deleted by key, so it is
      a finite map from the key string to the session record.
    - [timeOnTask] is enumerated by [Object.entries], so it is modelled
      as a JavaScript object whose own properties keep their creation
      order, with the enumeration order of the language.
    - The database query, [toJSON] (which turns a row into the plain
      record used here), logging and the promise plumbing are left out:
      the embedding starts at [processEvents]. *)

From Stdlib Require Import ZArith Lia Ascii String DecimalString DecimalZ DecimalPos.
From stdpp Require Import base option list sorting strings gmap.

Local Open Scope string_scope.
Local Open Scope Z_scope.

(** * The JavaScript fragment *)

Module JS.

(** [ToString] on an integer-valued number: decimal digits, with a
    leading minus sign for negative values (the form JavaScript uses for
    every integer below 10^21).  It is what a template literal and a
    property access apply to a number. *)
Definition ToString (z : Z) : string := NilZero.string_of_int (Z.to_int z).

(** Truthiness of a number: every number but zero (there is no NaN in
    the integer model). *)
Definition truthy (z : Z) : bool := negb (z =? 0).

(** Truthiness of the result of a property read whose value, when the
    property exists, is a number: [undefined] is falsy. *)
Definition truthy_prop (v : option Z) : bool :=
  match v with
  | Some z => truthy z
  | None => false
  end.

(** ** Objects used as dictionaries

    The own properties of an object, in creation order.  The keys are
    property keys, that is strings. *)
Abbreviation object V := (list (string * V)).

Definition empty {V : Type} : object V := [].

(** [o[k]]: the value of the own property, [None] for [undefined].  (The
    keys the programs use are never names of [Object.prototype].) *)
Fixpoint get {V : Type} (k : string) (o : object V) : option V :=
  match o with
  | [] => None
  | (k', v) :: o' => if decide (k = k') then Some v else get k o'
  end.

(** [o[k] = v]: an existing property keeps its place, a new one is
    created after all the others. *)
Fixpoint set {V : Type} (k : string) (v : V) (o : object V) : object V :=
  match o with
  | [] => [(k, v)]
  | (k', v') :: o' =>
      if decide (k = k') then (k, v) :: o' else (k', v') :: set k v o'
  end.

(** [o[k] += x] on a property holding a number.  On an absent property
    JavaScript would store NaN, which the integer model does not have;
    the programs only use [+=] on a property that exists (see
    [credit_defined]). *)
Definition add_assign (k : string) (x : Z) (o : object Z) : object Z :=
  match get k o with
  | Some v => set k (v + x) o
  | None => o
  end.

(** A property key is an array index when it is the canonical decimal
    form of an integer [i] with [0 <= i < 2^32 - 1]
    (CanonicalNumericIndexString: [ToString (ToNumber k) = k]). *)
Definition arrayIndex (k : string) : option Z :=
  match NilZero.uint_of_string k with
  | Some d =>
      let n := Z.of_uint d in
      if decide (ToString n = k ∧ n < 2 ^ 32 - 1) then Some n else None
  | None => None
  end.

(** The own properties whose key is an array index, with that index. *)
Definition indexProps {V : Type} (o : object V) : list (Z * (string * V)) :=
  omap (λ kv, i ← arrayIndex kv.1; Some (i, kv)) o.

(** The own properties whose key is not an array index. *)
Definition namedProps {V : Type} (o : object V) : list (string * V) :=
  filter (λ kv, arrayIndex kv.1 = None) o.

Definition indexLe {V : Type} (a b : Z * (string * V)) : Prop := a.1 ≤ b.1.

#[global] Instance indexLe_dec {V : Type} (a b : Z * (string * V)) :
  Decision (indexLe a b) := Z_le_dec a.1 b.1.

(** [Object.entries o] (OrdinaryOwnPropertyKeys): first the properties
    whose key is an array index, in ascending numeric order, then the
    other string keys in creation order. *)
Definition entries {V : Type} (o : object V) : list (string * V) :=
  (merge_sort indexLe (indexProps o)).*2 ++ namedProps o.

(** ** [parseInt (s, 10)] *)

Definition isWhiteSpace (a : ascii) : bool :=
  let n := nat_of_ascii a in
  ((9 <=? n)%nat && (n <=? 13)%nat) || (n =? 32)%nat.

Fixpoint trimStart (s : string) : string :=
  match s with
  | String a s' => if isWhiteSpace a then trimStart s' else s
  | EmptyString => s
  end.

(** The longest prefix of decimal digits. *)
Fixpoint digits (s : string) : Decimal.uint :=
  match s with
  | EmptyString => Decimal.Nil
  | String a s' =>
      match uint_of_char a (Some (digits s')) with
      | Some d => d
      | None => Decimal.Nil
      end
  end.

(** [None] stands for NaN. *)
Definition parseInt (s : string) : option Z :=
  let s := trimStart s in
  let '(sign, s) :=
    match s with
    | String "-" r => (-1, r)
    | String "+" r => (1, r)
    | _ => (1, s)
    end in
  match digits s with
  | Decimal.Nil => None
  | d => Some (sign * Z.of_uint d)
  end.

(** ** [new Date (secs * 1000).toISOString ().substr (11, 8)]

    For a time value within the years 0000 to 9999 the ISO string is
    [YYYY-MM-DDTHH:mm:ss.sssZ] and its characters 11 to 18 are the UTC
    time of day.  Outside that range the year is written in the expanded
    form, and past 8.64e15 milliseconds the date is invalid:
    [toISOString] then throws a RangeError, which ends the whole call of
    [formatTimeOnTaskResult].  Neither is modelled: the result is
    [None], and a record whose clock string is [None] says nothing about
    what the code returns. *)
Definition pad2 (n : Z) : string :=
  if n <? 10 then "0" ++ ToString n else ToString n.

Definition timeOfDay (secs : Z) : string :=
  pad2 ((secs / 3600) mod 24) ++ ":" ++ pad2 ((secs / 60) mod 60) ++ ":" ++
  pad2 (secs mod 60).

Definition isoTimeOfDay (secs : Z) : option string :=
  if (-62167219200 <=? secs) && (secs <? 253402300800)
  then Some (timeOfDay secs)
  else None.

End JS.

(** * Data model *)

(** A row of [student_events], as the queries project it. *)
Record Event : Type := mkEvent {
  userId : Z;
  classId : Z;
  taskId : string;
  action : string;
  client_time : Z
}.

(** The record kept in [activeSessions].  [pauseStartTime] does not exist
    until the session is paused for the first time. *)
Record Session : Type := mkSession {
  startTime : Z;
  pausedTime : Z;
  isPaused : bool;
  pauseStartTime : option Z
}.

(** The template literal [`${id}-${taskId}`]. *)
Definition sessionKey (id : Z) (task : string) : string :=
  JS.ToString id ++ "-" ++ task.

(** * [src/perStudent.js] *)

Module PerStudent.

Definition startSession (key : string) (clientTime : Z)
    (activeSessions : gmap string Session) : gmap string Session :=
  match activeSessions !! key with
  | None =>
      <[key := {| startTime := clientTime; pausedTime := 0;
                  isPaused := false; pauseStartTime := None |}]> activeSessions
  | Some _ => activeSessions
  end.

Definition pauseSession (key : string) (clientTime : Z)
    (activeSessions : gmap string Session) : gmap string Session :=
  match activeSessions !! key with
  | Some s =>
      if negb (isPaused s)
      then <[key := {| startTime := startTime s; pausedTime := pausedTime s;
                       isPaused := true;
                       pauseStartTime := Some clientTime |}]> activeSessions
      else activeSessions
  | None => activeSessions
  end.

(** A paused session always has a [pauseStartTime] ([pauseSession] sets
    both fields together, see [sessions_ok]); the last
    branch is the read of a missing field, which cannot happen. *)
Definition unpauseSession (key : string) (clientTime : Z)
    (activeSessions : gmap string Session) : gmap string Session :=
  match activeSessions !! key with
  | Some s =>
      if isPaused s
      then match pauseStartTime s with
           | Some p =>
               let pauseDuration := clientTime - p in
               <[key := {| startTime := startTime s;
                           pausedTime := pausedTime s + pauseDuration;
                           isPaused := false;
                           pauseStartTime := Some p |}]> activeSessions
           | None => activeSessions
           end
      else activeSessions
  | None => activeSessions
  end.

Definition finishSession (key : string) (clientTime : Z)
    (activeSessions : gmap string Session) (timeOnTask : JS.object Z)
    (userId : Z) : gmap string Session * JS.object Z :=
  match activeSessions !! key with
  | Some s =>
      let timeOnTask' :=
        if (startTime s <? clientTime) && JS.truthy (clientTime - startTime s)
        then
          let sessionDuration := clientTime - startTime s - pausedTime s in
          let t0 :=
            if negb (JS.truthy_prop (JS.get (JS.ToString userId) timeOnTask))
            then JS.set (JS.ToString userId) 0 timeOnTask
            else timeOnTask in
          JS.add_assign (JS.ToString userId) (Z.max 0 sessionDuration) t0
        else timeOnTask in
      (delete key activeSessions, timeOnTask')
  | None => (activeSessions, timeOnTask)
  end.

Definition processEvent (event : Event)
    (st : gmap string Session * JS.object Z) : gmap string Session * JS.object Z :=
  let '(activeSessions, timeOnTask) := st in
  let key := sessionKey (userId event) (taskId event) in
  if decide (action event = "started") then
    (startSession key (client_time event) activeSessions, timeOnTask)
  else if decide (action event = "paused") then
    (pauseSession key (client_time event) activeSessions, timeOnTask)
  else if decide (action event = "unpaused") then
    (unpauseSession key (client_time event) activeSessions, timeOnTask)
  else if decide (action event = "finished") then
    finishSession key (client_time event) activeSessions timeOnTask (userId event)
  else st.

(** The [forEach] loop over [eventsJson], from any pair of tables. *)
Definition run (events : list Event)
    (st : gmap string Session * JS.object Z) : gmap string Session * JS.object Z :=
  fold_left (λ st event, processEvent event st) events st.

(** Returns the [timeOnTask] of the result object. *)
Definition processEvents (events : list Event) : JS.object Z :=
  (run events (∅, JS.empty)).2.

(** One element of the array [formatTimeOnTaskResult] returns: the
    identifier read back from the property key ([None] for NaN) and the
    clock string. *)
Record Row : Type := mkRow {
  userId : option Z;
  totalTimeOnTask : option string
}.

Definition formatTimeOnTaskResult (timeOnTask : JS.object Z) : list Row :=
  (λ '(k, total), {| userId := JS.parseInt k;
                     totalTimeOnTask := JS.isoTimeOfDay total |})
    <$> JS.entries timeOnTask.

(** The actions [fetchStudentEvents] asks the table for (its [Op.in]
    list). *)
Definition whitelist : list string := ["started"; "finished"; "paused"; "unpaused"].

(** [calculateTimeOnTask], from the events [fetchStudentEvents] resolved
    to.  (A failure of the query is logged and thrown again; that path
    has no counterpart here.) *)
Definition calculateTimeOnTask (events : list Event) : list Row :=
  formatTimeOnTaskResult (processEvents events).

End PerStudent.

(** * [combined.js] *)

(** The two values [calculateTimeOnTask] passes as [idField]. *)
Inductive IdField : Type := userIdField | classIdField.

(** [event[idField]]. *)
Definition eventField (event : Event) (idField : IdField) : Z :=
  match idField with
  | userIdField => userId event
  | classIdField => classId event
  end.

Module Combined.

Definition startSession (key : string) (clientTime : Z)
    (activeSessions : gmap string Session) : gmap string Session :=
  match activeSessions !! key with
  | None =>
      <[key := {| startTime := clientTime; pausedTime := 0;
                  isPaused := false; pauseStartTime := None |}]> activeSessions
  | Some _ => activeSessions
  end.

Definition pauseSession (key : string) (clientTime : Z)
    (activeSessions : gmap string Session) : gmap string Session :=
  match activeSessions !! key with
  | Some s =>
      if negb (isPaused s)
      then <[key := {| startTime := startTime s; pausedTime := pausedTime s;
                       isPaused := true;
                       pauseStartTime := Some clientTime |}]> activeSessions
      else activeSessions
  | None => activeSessions
  end.

(** A paused session always has a [pauseStartTime] ([pauseSession] sets
    both fields together, see [sessions_ok]); the last
    branch is the read of a missing field, which cannot happen. *)
Definition unpauseSession (key : string) (clientTime : Z)
    (activeSessions : gmap string Session) : gmap string Session :=
  match activeSessions !! key with
  | Some s =>
      if isPaused s
      then match pauseStartTime s with
           | Some p =>
               let pauseDuration := clientTime - p in
               <[key := {| startTime := startTime s;
                           pausedTime := pausedTime s + pauseDuration;
                           isPaused := false;
                           pauseStartTime := Some p |}]> activeSessions
           | None => activeSessions
           end
      else activeSessions
  | None => activeSessions
  end.

Definition finishSession (key : string) (clientTime : Z)
    (activeSessions : gmap string Session) (timeOnTask : JS.object Z)
    (id : Z) : gmap string Session * JS.object Z :=
  match activeSessions !! key with
  | Some s =>
      let timeOnTask' :=
        if (startTime s <? clientTime) && (clientTime - startTime s <? 3600)
        then
          let sessionDuration := clientTime - startTime s - pausedTime s in
          let t0 :=
            if negb (JS.truthy_prop (JS.get (JS.ToString id) timeOnTask))
            then JS.set (JS.ToString id) 0 timeOnTask
            else timeOnTask in
          JS.add_assign (JS.ToString id) (Z.max 0 sessionDuration) t0
        else timeOnTask in
      (delete key activeSessions, timeOnTask')
  | None => (activeSessions, timeOnTask)
  end.

Definition processEvent (event : Event)
    (st : gmap string Session * JS.object Z) (idField : IdField) :
    gmap string Session * JS.object Z :=
  let '(activeSessions, timeOnTask) := st in
  let id := eventField event idField in
  let key := sessionKey id (taskId event) in
  if decide (action event = "started") then
    (startSession key (client_time event) activeSessions, timeOnTask)
  else if decide (action event = "application-paused") then
    (pauseSession key (client_time event) activeSessions, timeOnTask)
  else if decide (action event = "application-unpaused") then
    (unpauseSession key (client_time event) activeSessions, timeOnTask)
  else if decide (action event = "finished") then
    finishSession key (client_time event) activeSessions timeOnTask id
  else st.

Definition run (events : list Event) (idField : IdField)
    (st : gmap string Session * JS.object Z) : gmap string Session * JS.object Z :=
  fold_left (λ st event, processEvent event st idField) events st.

Definition processEvents (events : list Event) (idField : IdField) : JS.object Z :=
  (run events idField (∅, JS.empty)).2.

(** One element of the array [formatTimeOnTaskResult] returns: the
    identifier read back from the property key ([None] for NaN) and the
    clock string. *)
Record Row : Type := mkRow {
  id : option Z;
  totalTimeOnTask : option string
}.

Definition formatTimeOnTaskResult (timeOnTask : JS.object Z) : list Row :=
  (λ '(k, total), {| id := JS.parseInt k;
                     totalTimeOnTask := JS.isoTimeOfDay total |})
    <$> JS.entries timeOnTask.

(** The actions [fetchStudentEvents] asks the table for (its [Op.in]
    list). *)
Definition whitelist : list string :=
  ["started"; "finished"; "application-paused"; "application-unpaused"].

(** The object [calculateTimeOnTask] resolves to. *)
Record Result : Type := mkResult {
  userTimeOnTask : list Row;
  classTimeOnTask : list Row
}.

(** [calculateTimeOnTask], from the events [fetchStudentEvents] resolved
    to: one pass per dimension over the same events, each with tables of
    its own. *)
Definition calculateTimeOnTask (events : list Event) : Result :=
  {| userTimeOnTask := formatTimeOnTaskResult (processEvents events userIdField);
     classTimeOnTask := formatTimeOnTaskResult (processEvents events classIdField) |}.

End Combined.

(** * [src/perClass.js] *)

Module PerClass.

Definition startSession (key : string) (clientTime : Z)
    (activeSessions : gmap string Session) : gmap string Session :=
  match activeSessions !! key with
  | None =>
      <[key := {| startTime := clientTime; pausedTime := 0;
                  isPaused := false; pauseStartTime := None |}]> activeSessions
  | Some _ => activeSessions
  end.

Definition pauseSession (key : string) (clientTime : Z)
    (activeSessions : gmap string Session) : gmap string Session :=
  match activeSessions !! key with
  | Some s =>
      if negb (isPaused s)
      then <[key := {| startTime := startTime s; pausedTime := pausedTime s;
                       isPaused := true;
                       pauseStartTime := Some clientTime |}]> activeSessions
      else activeSessions
  | None => activeSessions
  end.

(** A paused session always has a [pauseStartTime] ([pauseSession] sets
    both fields together, see [sessions_ok]); the last
    branch is the read of a missing field, which cannot happen. *)
Definition unpauseSession (key : string) (clientTime : Z)
    (activeSessions : gmap string Session) : gmap string Session :=
  match activeSessions !! key with
  | Some s =>
      if isPaused s
      then match pauseStartTime s with
           | Some p =>
               let pauseDuration := clientTime - p in
               <[key := {| startTime := startTime s;
                           pausedTime := pausedTime s + pauseDuration;
                           isPaused := false;
                           pauseStartTime := Some p |}]> activeSessions
           | None => activeSessions
           end
      else activeSessions
  | None => activeSessions
  end.

Definition finishSession (key : string) (clientTime : Z)
    (activeSessions : gmap string Session) (timeOnTask : JS.object Z)
    (id : Z) : gmap string Session * JS.object Z :=
  match activeSessions !! key with
  | Some s =>
      let timeOnTask' :=
        if (startTime s <? clientTime) && (clientTime - startTime s <? 3600)
        then
          let sessionDuration := clientTime - startTime s - pausedTime s in
          let t0 :=
            if negb (JS.truthy_prop (JS.get (JS.ToString id) timeOnTask))
            then JS.set (JS.ToString id) 0 timeOnTask
            else timeOnTask in
          JS.add_assign (JS.ToString id) (Z.max 0 sessionDuration) t0
        else timeOnTask in
      (delete key activeSessions, timeOnTask')
  | None => (activeSessions, timeOnTask)
  end.

(** [processEvent] takes three parameters here: the [idField] that
    [processEvents] passes as a fourth argument is dropped, and the
    identifier is always [classId]. *)
Definition processEvent (event : Event)
    (st : gmap string Session * JS.object Z) : gmap string Session * JS.object Z :=
  let '(activeSessions, timeOnTask) := st in
  let id := classId event in
  let key := sessionKey id (taskId event) in
  if decide (action event = "started") then
    (startSession key (client_time event) activeSessions, timeOnTask)
  else if decide (action event = "application-paused") then
    (pauseSession key (client_time event) activeSessions, timeOnTask)
  else if decide (action event = "application-unpaused") then
    (unpauseSession key (client_time event) activeSessions, timeOnTask)
  else if decide (action event = "finished") then
    finishSession key (client_time event) activeSessions timeOnTask id
  else st.

Definition run (events : list Event)
    (st : gmap string Session * JS.object Z) : gmap string Session * JS.object Z :=
  fold_left (λ st event, processEvent event st) events st.

Definition processEvents (events : list Event) (idField : IdField) : JS.object Z :=
  (run events (∅, JS.empty)).2.

(** One element of the array [formatTimeOnTaskResult] returns: the
    identifier read back from the property key ([None] for NaN) and the
    clock string. *)
Record Row : Type := mkRow {
  id : option Z;
  totalTimeOnTask : option string
}.

Definition formatTimeOnTaskResult (timeOnTask : JS.object Z) : list Row :=
  (λ '(k, total), {| id := JS.parseInt k;
                     totalTimeOnTask := JS.isoTimeOfDay total |})
    <$> JS.entries timeOnTask.

(** The actions [fetchStudentEvents] asks the table for (its [Op.in]
    list). *)
Definition whitelist : list string :=
  ["started"; "finished"; "application-paused"; "application-unpaused"].

(** [calculateTimeOnTaskPerClass], from the events [fetchStudentEvents]
    resolved to. *)
Definition calculateTimeOnTaskPerClass (events : list Event) : list Row :=
  formatTimeOnTaskResult (processEvents events classIdField).

End PerClass.

(** The value [timeOnTask[id]] counts for: the number stored under the
    key of [id], and 0 as long as the property does not exist. *)
Definition totalOf (timeOnTask : JS.object Z) (id : Z) : Z :=
  default 0 (JS.get (JS.ToString id) timeOnTask).

(** The three statements of [finishSession] that update [timeOnTask]:
    create the property at 0 when it is missing (or falsy), then add. *)
Definition credit (k : string) (amount : Z) (timeOnTask : JS.object Z) : JS.object Z :=
  JS.add_assign k amount
    (if negb (JS.truthy_prop (JS.get k timeOnTask))
     then JS.set k 0 timeOnTask else timeOnTask).

(** Event constructors for the statements below. *)
Definition started (u c : Z) (task : string) (t : Z) : Event :=
  mkEvent u c task "started" t.
Definition finished (u c : Z) (task : string) (t : Z) : Event :=
  mkEvent u c task "finished" t.
Definition paused (u c : Z) (task : string) (t : Z) : Event :=
  mkEvent u c task "paused" t.
Definition unpaused (u c : Z) (task : string) (t : Z) : Event :=
  mkEvent u c task "unpaused" t.

(** The invariant behind the read of [pauseStartTime] in
    [unpauseSession]: a paused session has one. *)
Definition session_ok (s : Session) : Prop :=
  isPaused s = true → is_Some (pauseStartTime s).

Definition sessions_ok (activeSessions : gmap string Session) : Prop :=
  ∀ key s, activeSessions !! key = Some s → session_ok s.

(** ** What the specification calls the accumulated pause duration

    The pause intervals a session completes, in the words of the
    specification: a [paused] opens an interval when none is open, the
    next [unpaused] closes it, and anything else is ignored.  [pending]
    is the start of the interval that is open, if any; the trace lists
    the actions on the key of the session with their timestamps. *)
Fixpoint completedPauses (pending : option Z) (trace : list (string * Z)) :
    list (Z * Z) :=
  match trace with
  | [] => []
  | (a, t) :: trace' =>
      if decide (a = "paused") then
        match pending with
        | None => completedPauses (Some t) trace'
        | Some _ => completedPauses pending trace'
        end
      else if decide (a = "unpaused") then
        match pending with
        | Some p => (p, t) :: completedPauses None trace'
        | None => completedPauses None trace'
        end
      else completedPauses pending trace'
  end.

(** The sum of the (unpause - pause) deltas. *)
Definition pauseTotal (pairs : list (Z * Z)) : Z :=
  foldr (λ pq acc, (pq.2 - pq.1) + acc) 0 pairs.

(** The events of a stream that bear on a session key, in stream order,
    for the per-student engine. *)
Definition onKey (key : string) (e : Event) : Prop :=
  sessionKey (userId e) (taskId e) = key.

#[global] Instance onKey_dec (key : string) (e : Event) : Decision (onKey key e) :=
  decide (sessionKey (userId e) (taskId e) = key).

Definition traceOf (key : string) (events : list Event) : list (string * Z) :=
  (λ e, (action e, client_time e)) <$> filter (onKey key) events.

(** The open interval of a session record. *)
Definition pendingOf (s : Session) : option Z :=
  if isPaused s then pauseStartTime s else None.

(** ** Order of first contribution

    The identifier a step credits, if it credits one: the event is
    [finished], its key has an open session and the session passes the
    validity test of [finishSession]. *)
Definition studentCredited (e : Event) (activeSessions : gmap string Session) :
    option Z :=
  if decide (action e = "finished") then
    match activeSessions !! sessionKey (userId e) (taskId e) with
    | Some s =>
        if (startTime s <? client_time e) && JS.truthy (client_time e - startTime s)
        then Some (userId e) else None
    | None => None
    end
  else None.

Definition combinedCredited (f : IdField) (e : Event)
    (activeSessions : gmap string Session) : option Z :=
  if decide (action e = "finished") then
    match activeSessions !! sessionKey (eventField e f) (taskId e) with
    | Some s =>
        if (startTime s <? client_time e) && (client_time e - startTime s <? 3600)
        then Some (eventField e f) else None
    | None => None
    end
  else None.

(** The identifiers credited along a stream, one entry per valid
    contribution, in stream order. *)
Fixpoint studentContributions (events : list Event)
    (st : gmap string Session * JS.object Z) : list Z :=
  match events with
  | [] => []
  | e :: events' =>
      let rest := studentContributions events' (PerStudent.processEvent e st) in
      match studentCredited e st.1 with
      | Some u => u :: rest
      | None => rest
      end
  end.

Fixpoint combinedContributions (f : IdField) (events : list Event)
    (st : gmap string Session * JS.object Z) : list Z :=
  match events with
  | [] => []
  | e :: events' =>
      let rest := combinedContributions f events' (Combined.processEvent e st f) in
      match combinedCredited f e st.1 with
      | Some u => u :: rest
      | None => rest
      end
  end.

(** The identifiers of a list in the order of their first occurrence. *)
Definition noteFirst (order : list Z) (u : Z) : list Z :=
  if decide (u ∈ order) then order else (order ++ [u])%list.

Definition firstOccurrences (log : list Z) : list Z := fold_left noteFirst log [].

(** The identifiers whose decimal form is an array index. *)
Definition isIndex (i : Z) : Prop := 0 ≤ i < 2 ^ 32 - 1.

#[global] Instance isIndex_dec (i : Z) : Decision (isIndex i) :=
  decide (0 ≤ i < 2 ^ 32 - 1).

(** The stream of the counterexample to insertion order: student 2
    completes a session before student 1 does. *)
Definition twoThenOne : list Event :=
  [ started 2 7 "t" 100; finished 2 7 "t" 160;
    started 1 7 "t" 200; finished 1 7 "t" 230 ].

(** ** Notions used by the further properties *)

(** Two states that no event of entity [u] can tell apart: the same
    sessions on the keys of [u], the same total for [u]. *)
Definition sameForUser (u : Z) (st st' : gmap string Session * JS.object Z) : Prop :=
  (∀ task, st.1 !! sessionKey u task = st'.1 !! sessionKey u task)
  ∧ totalOf st.2 u = totalOf st'.2 u.

(** A complete session of one student on one task, as a piece of a
    stream: [started], then actions on the same key (anything but
    [finished]), then [finished]. *)
Record Block : Type := mkBlock {
  blockUser : Z;
  blockClass : Z;
  blockTask : string;
  blockStart : Z;
  blockMid : list (string * Z);
  blockEnd : Z
}.

Definition blockEvents (b : Block) : list Event :=
  (started (blockUser b) (blockClass b) (blockTask b) (blockStart b)
   :: ((λ a, mkEvent (blockUser b) (blockClass b) (blockTask b) a.1 a.2)
         <$> blockMid b)
   ++ [finished (blockUser b) (blockClass b) (blockTask b) (blockEnd b)])%list.

Definition blockOk (b : Block) : Prop :=
  Forall (λ a, a.1 ≠ "finished") (blockMid b).

(** What [perStudent.js] credits for the block. *)
Definition blockAmount (b : Block) : Z :=
  if blockStart b <? blockEnd b
  then Z.max 0 (blockEnd b - blockStart b
                - pauseTotal (completedPauses None (blockMid b)))
  else 0.

Definition sumZ (l : list Z) : Z := foldr Z.add 0 l.


(** A session whose timestamps are consistent with the time [now]: it
    started in the past, its pauses took a non-negative time that fits
    between its start and [now], and a pause still open began after the
    completed ones and before [now]. *)
Definition timely (now : Z) (s : Session) : Prop :=
  0 ≤ pausedTime s
  ∧ if isPaused s
    then ∃ p, pauseStartTime s = Some p ∧ startTime s + pausedTime s ≤ p ∧ p ≤ now
    else startTime s + pausedTime s ≤ now.

(** A stream whose timestamps never go back. *)
Definition monotone (events : list Event) : Prop :=
  StronglySorted (λ a b, client_time a ≤ client_time b) events.

(** * Facts about the JavaScript fragment *)

Section JSFacts.

Lemma digits_string_of_uint (d : Decimal.uint) (rest : string) :
  JS.digits rest = Decimal.Nil →
  JS.digits (NilEmpty.string_of_uint d ++ rest) = d.
Proof.
  intros Hrest. induction d; simpl; rewrite ?IHd; done.
Qed.

Lemma to_uint_nonnil (p : positive) : Pos.to_uint p ≠ Decimal.Nil.
Proof.
  intros H. pose proof (DecimalPos.Unsigned.of_to p) as Hp.
  rewrite H in Hp. discriminate Hp.
Qed.

Lemma of_uint_to_uint (p : positive) : Z.of_uint (Pos.to_uint p) = Z.pos p.
Proof. unfold Z.of_uint. by rewrite DecimalPos.Unsigned.of_to. Qed.

Lemma digits_parse (d : Decimal.uint) (rest : string) :
  d ≠ Decimal.Nil → JS.digits rest = Decimal.Nil →
  JS.parseInt (NilEmpty.string_of_uint d ++ rest) = Some (Z.of_uint d).
Proof.
  intros Hd Hrest. unfold JS.parseInt.
  destruct d; try done; simpl;
    rewrite digits_string_of_uint by done;
    by destruct (Z.of_uint _).
Qed.

Lemma digits_parse_neg (d : Decimal.uint) (rest : string) :
  d ≠ Decimal.Nil → JS.digits rest = Decimal.Nil →
  JS.parseInt (String "-" (NilEmpty.string_of_uint d ++ rest))
  = Some (- Z.of_uint d).
Proof.
  intros Hd Hrest. unfold JS.parseInt. simpl.
  rewrite digits_string_of_uint by done.
  destruct d; try done; f_equal; lia.
Qed.

(** [parseInt] reads back an integer from its decimal form, whatever
    follows it, as long as that does not start with a digit. *)
Lemma parseInt_ToString_app (z : Z) (rest : string) :
  JS.digits rest = Decimal.Nil →
  JS.parseInt (JS.ToString z ++ rest) = Some z.
Proof.
  intros Hrest. unfold JS.ToString. destruct z as [|p|p]; simpl.
  - change ("0" +:+ rest) with (String "0" rest).
    unfold JS.parseInt. simpl. by rewrite Hrest.
  - pose proof (to_uint_nonnil p) as Hp.
    rewrite <- (of_uint_to_uint p).
    rewrite <- (digits_parse (Pos.to_uint p) rest) by done.
    by destruct (Pos.to_uint p).
  - pose proof (to_uint_nonnil p) as Hp.
    replace (Z.neg p) with (- Z.of_uint (Pos.to_uint p))
      by (rewrite of_uint_to_uint; lia).
    rewrite <- (digits_parse_neg (Pos.to_uint p) rest) by done.
    by destruct (Pos.to_uint p).
Qed.

Lemma string_app_empty_r (s : string) : s ++ "" = s.
Proof.
  induction s as [|a s IH]; [done|].
  change (String a (s ++ "") = String a s). by rewrite IH.
Qed.

Lemma parseInt_ToString (z : Z) : JS.parseInt (JS.ToString z) = Some z.
Proof.
  rewrite <- (string_app_empty_r (JS.ToString z)).
  by apply parseInt_ToString_app.
Qed.

Lemma ToString_inj (a b : Z) : JS.ToString a = JS.ToString b → a = b.
Proof.
  intros H. apply (f_equal JS.parseInt) in H.
  rewrite !parseInt_ToString in H. congruence.
Qed.

#[global] Instance ToString_Inj : Inj (=) (=) JS.ToString.
Proof. intros a b. apply ToString_inj. Qed.

Lemma string_app_inv_head (s t u : string) : s ++ t = s ++ u → t = u.
Proof.
  induction s as [|a s IH]; [done|].
  change (String a (s ++ t) = String a (s ++ u) → t = u).
  intros [= H]. by apply IH.
Qed.

(** Distinct (identifier, task) pairs never share a session key. *)
Lemma sessionKey_inj (a b : Z) (t u : string) :
  sessionKey a t = sessionKey b u → a = b ∧ t = u.
Proof.
  unfold sessionKey. intros H.
  assert (a = b) as ->.
  { apply (f_equal JS.parseInt) in H.
    rewrite !parseInt_ToString_app in H by done. congruence. }
  apply string_app_inv_head in H.
  change (String "-" t = String "-" u) in H. by injection H.
Qed.

Lemma of_uint_nonneg (d : Decimal.uint) : 0 ≤ Z.of_uint d.
Proof. unfold Z.of_uint. lia. Qed.

Lemma arrayIndex_Some (k : string) (n : Z) :
  JS.arrayIndex k = Some n → k = JS.ToString n ∧ 0 ≤ n < 2 ^ 32 - 1.
Proof.
  unfold JS.arrayIndex. destruct (NilZero.uint_of_string k) as [d|]; [|done].
  simpl. case_decide as H; [|done]. intros [= <-].
  destruct H as [H1 H2]. pose proof (of_uint_nonneg d). split; [done | lia].
Qed.

Lemma arrayIndex_ToString (z : Z) :
  JS.arrayIndex (JS.ToString z) = if decide (isIndex z) then Some z else None.
Proof.
  destruct (JS.arrayIndex (JS.ToString z)) as [n|] eqn:E.
  - apply arrayIndex_Some in E as [E1 E2]. apply ToString_inj in E1 as <-.
    by rewrite decide_True.
  - case_decide as Hz; [|done]. exfalso. unfold isIndex in Hz.
    unfold JS.arrayIndex, JS.ToString in E.
    destruct z as [|p|p]; [done| |lia].
    simpl in E. rewrite NilZero.usu in E by apply to_uint_nonnil.
    simpl in E. rewrite of_uint_to_uint in E.
    rewrite decide_True in E; [done|]. split; [done | lia].
Qed.

Lemma get_set {V : Type} (k k' : string) (v : V) (o : JS.object V) :
  JS.get k' (JS.set k v o) = if decide (k' = k) then Some v else JS.get k' o.
Proof.
  induction o as [|[k0 v0] o IH]; simpl.
  - by repeat case_decide.
  - repeat (case_decide; simpl; subst); try done; congruence.
Qed.

Lemma get_None {V : Type} (k : string) (o : JS.object V) :
  JS.get k o = None ↔ k ∉ o.*1.
Proof.
  induction o as [|[k0 v0] o IH]; simpl.
  - split; [intros _; apply not_elem_of_nil | done].
  - rewrite not_elem_of_cons. case_decide; [|tauto].
    split; [done | tauto].
Qed.

Lemma keys_set {V : Type} (k : string) (v : V) (o : JS.object V) :
  (JS.set k v o).*1 = if decide (k ∈ o.*1) then o.*1 else (o.*1 ++ [k])%list.
Proof.
  induction o as [|[k0 v0] o IH]; [done|].
  rewrite fmap_cons. cbn [JS.set fst].
  destruct (decide (k = k0)) as [->|Hne].
  - rewrite decide_True; [done | left].
  - rewrite fmap_cons, IH. cbn [fst].
    destruct (decide (k ∈ o.*1)) as [Hin|Hnin].
    + rewrite decide_True; [done | by right].
    + rewrite decide_False; [done|]. rewrite not_elem_of_cons. tauto.
Qed.

(** The property [finishSession] adds to exists when it does. *)
Lemma credit_defined (k : string) (T : JS.object Z) :
  is_Some (JS.get k (if negb (JS.truthy_prop (JS.get k T))
                     then JS.set k 0 T else T)).
Proof.
  destruct (JS.get k T) as [v|] eqn:E; simpl.
  - destruct (JS.truthy v); simpl; [by rewrite E|].
    rewrite get_set, decide_True by done. by eexists.
  - rewrite get_set, decide_True by done. by eexists.
Qed.

Lemma get_credit (k k' : string) (m : Z) (T : JS.object Z) :
  JS.get k' (credit k m T)
  = if decide (k' = k) then Some (default 0 (JS.get k T) + m) else JS.get k' T.
Proof.
  unfold credit, JS.add_assign.
  destruct (JS.get k T) as [v|] eqn:E; simpl.
  - unfold JS.truthy. destruct (Z.eqb_spec v 0) as [->|Hv]; simpl.
    + rewrite !get_set, decide_True by done. rewrite !get_set.
      case_decide; done.
    + rewrite E, get_set. done.
  - rewrite !get_set, decide_True by done. rewrite !get_set.
    case_decide; done.
Qed.

Lemma totalOf_credit (u u' : Z) (m : Z) (T : JS.object Z) :
  totalOf (credit (JS.ToString u) m T) u'
  = if decide (u' = u) then totalOf T u + m else totalOf T u'.
Proof.
  unfold totalOf. rewrite get_credit.
  destruct (decide (u' = u)) as [->|Hne].
  - by rewrite decide_True.
  - rewrite decide_False; [done|]. intros H. by apply ToString_inj in H.
Qed.

Lemma keys_set_in {V : Type} (k : string) (v : V) (o : JS.object V) :
  k ∈ o.*1 → (JS.set k v o).*1 = o.*1.
Proof. intros H. by rewrite keys_set, decide_True. Qed.

Lemma keys_set_notin {V : Type} (k : string) (v : V) (o : JS.object V) :
  k ∉ o.*1 → (JS.set k v o).*1 = (o.*1 ++ [k])%list.
Proof. intros H. by rewrite keys_set, decide_False. Qed.

Lemma keys_credit (k : string) (m : Z) (T : JS.object Z) :
  (credit k m T).*1 = if decide (k ∈ T.*1) then T.*1 else (T.*1 ++ [k])%list.
Proof.
  unfold credit, JS.add_assign.
  destruct (JS.get k T) as [v|] eqn:E; simpl.
  - assert (k ∈ T.*1) as Hin.
    { destruct (decide (k ∈ T.*1)) as [|Hn]; [done|].
      apply get_None in Hn. congruence. }
    rewrite decide_True by done.
    unfold JS.truthy. destruct (Z.eqb_spec v 0) as [->|Hv]; simpl.
    + rewrite get_set, decide_True by done.
      rewrite keys_set_in; rewrite keys_set_in; done.
    + rewrite E. by rewrite keys_set_in.
  - pose proof (proj1 (get_None k T) E) as Hn.
    rewrite decide_False by done.
    rewrite get_set, decide_True by done.
    rewrite keys_set_in; rewrite keys_set_notin; try done.
    apply elem_of_app. right. left.
Qed.

End JSFacts.

(** * Enumeration order of an object keyed by identifiers *)

Section Entries.

Context {V : Type}.
Implicit Types (o : JS.object V) (ks : list Z).

Lemma namedProps_keys o ks :
  o.*1 = JS.ToString <$> ks →
  (JS.namedProps o).*1 = JS.ToString <$> filter (λ i, ¬ isIndex i) ks.
Proof.
  revert ks. induction o as [|[k v] o IH]; intros [|i ks] Hks; try done.
  rewrite !fmap_cons in Hks. injection Hks as Hk Hks. simpl in Hk. subst k.
  unfold JS.namedProps. rewrite !filter_cons. simpl.
  rewrite arrayIndex_ToString.
  destruct (decide (isIndex i)) as [Hi|Hi].
  - rewrite decide_False by done. rewrite decide_False by tauto. by apply IH.
  - rewrite decide_True by done. rewrite decide_True by done.
    rewrite !fmap_cons. f_equal. by apply IH.
Qed.

Lemma indexProps_keys o ks :
  o.*1 = JS.ToString <$> ks →
  (JS.indexProps o).*1 = filter isIndex ks
  ∧ Forall (λ x, x.2.1 = JS.ToString x.1) (JS.indexProps o).
Proof.
  revert ks. induction o as [|[k v] o IH]; intros [|i ks] Hks; try done.
  rewrite !fmap_cons in Hks. injection Hks as Hk Hks. simpl in Hk. subst k.
  destruct (IH ks Hks) as [IH1 IH2].
  unfold JS.indexProps in *. rewrite filter_cons. simpl.
  rewrite arrayIndex_ToString.
  destruct (decide (isIndex i)) as [Hi|Hi]; simpl.
  - split; [by f_equal|]. by constructor.
  - done.
Qed.

Lemma sorted_keys (l : list (Z * (string * V))) :
  Forall (λ x, x.2.1 = JS.ToString x.1) l → (l.*2).*1 = JS.ToString <$> l.*1.
Proof.
  induction 1 as [|x l Hx _ IH]; [done|]. rewrite !fmap_cons. by f_equal.
Qed.

#[local] Instance indexLe_trans : Transitive (@JS.indexLe V).
Proof. intros a b c. unfold JS.indexLe. lia. Qed.

#[local] Instance indexLe_total : Total (@JS.indexLe V).
Proof. intros a b. unfold JS.indexLe. lia. Qed.

Lemma strictly_sorted (l : list Z) :
  StronglySorted Z.le l → NoDup l → StronglySorted Z.lt l.
Proof.
  induction 1 as [|x l Hl IH Hx]; intros Hnd; [constructor|].
  apply NoDup_cons in Hnd as [Hnin Hnd].
  constructor; [by apply IH|].
  apply Forall_forall. intros y Hy.
  pose proof (proj1 (Forall_forall _ _) Hx y Hy) as Hle.
  assert (x ≠ y) by (intros ->; done). lia.
Qed.

(** The keys [Object.entries] lists, for an object whose keys are the
    decimal forms of distinct identifiers [ks] (in creation order): the
    array indices in ascending order, then the others as created. *)
Lemma entries_keys o ks :
  o.*1 = JS.ToString <$> ks → NoDup ks →
  ∃ idx, (JS.entries o).*1
         = JS.ToString <$> (idx ++ filter (λ i, ¬ isIndex i) ks)%list
    ∧ idx ≡ₚ filter isIndex ks
    ∧ StronglySorted Z.lt idx.
Proof.
  intros Hks Hnd.
  destruct (indexProps_keys o ks Hks) as [Hidx Hall].
  pose proof (merge_sort_Permutation JS.indexLe (JS.indexProps o)) as Hperm.
  exists ((merge_sort JS.indexLe (JS.indexProps o)).*1).
  assert ((merge_sort JS.indexLe (JS.indexProps o)).*1 ≡ₚ filter isIndex ks) as Hp.
  { rewrite <- Hidx. by apply fmap_Permutation. }
  split_and!.
  - unfold JS.entries. rewrite fmap_app, (namedProps_keys o ks Hks), fmap_app.
    f_equal. apply sorted_keys. by rewrite Hperm.
  - done.
  - apply strictly_sorted.
    + apply StronglySorted_fmap with (R1 := JS.indexLe); [by intros a b|].
      apply StronglySorted_merge_sort; apply _.
    + rewrite Hp. by apply NoDup_filter.
Qed.

Lemma get_elem_of o k v : NoDup o.*1 → (k, v) ∈ o → JS.get k o = Some v.
Proof.
  induction o as [|[k0 v0] o IH]; intros Hnd Hin.
  - by apply elem_of_nil in Hin.
  - rewrite fmap_cons in Hnd. apply NoDup_cons in Hnd as [Hnin Hnd].
    simpl. apply elem_of_cons in Hin as [[= -> ->]|Hin].
    + by rewrite decide_True.
    + rewrite decide_False; [by apply IH|].
      intros ->. apply Hnin. apply list_elem_of_fmap. by exists (k0, v).
Qed.

Lemma entries_elem_of o kv : kv ∈ JS.entries o → kv ∈ o.
Proof.
  unfold JS.entries. rewrite elem_of_app. intros [Hin|Hin].
  - apply list_elem_of_fmap in Hin as ([i kv'] & -> & Hin).
    rewrite merge_sort_Permutation in Hin.
    apply list_elem_of_omap in Hin as (x & Hx & Hsome). simpl.
    destruct (JS.arrayIndex x.1); simpl in Hsome; [|done].
    by injection Hsome as _ ->.
  - by apply list_elem_of_filter in Hin as [_ Hin].
Qed.

End Entries.

Lemma entries_values (o : JS.object Z) :
  NoDup o.*1 →
  JS.entries o = (λ k, (k, default 0 (JS.get k o))) <$> (JS.entries o).*1.
Proof.
  intros Hnd. rewrite <- list_fmap_compose.
  rewrite <- (list_fmap_id (JS.entries o)) at 1.
  apply Forall_fmap_ext_1, Forall_forall. intros [k v] Hin. simpl.
  apply entries_elem_of in Hin.
  by rewrite (get_elem_of o k v).
Qed.

(** ** Creation order of the properties of [timeOnTask] *)

Lemma NoDup_noteFirst (ks : list Z) (u : Z) : NoDup ks → NoDup (noteFirst ks u).
Proof.
  intros Hnd. unfold noteFirst. case_decide; [done|].
  apply NoDup_app. split_and!; [done | | apply NoDup_singleton].
  intros x Hx Hin. apply list_elem_of_singleton in Hin. by subst.
Qed.

Lemma NoDup_fold_noteFirst (log ks : list Z) :
  NoDup ks → NoDup (fold_left noteFirst log ks).
Proof.
  revert ks. induction log as [|u log IH]; intros ks Hnd; [done|].
  simpl. by apply IH, NoDup_noteFirst.
Qed.

Lemma keys_credit_id (u m : Z) (T : JS.object Z) (ks : list Z) :
  T.*1 = JS.ToString <$> ks →
  (credit (JS.ToString u) m T).*1 = JS.ToString <$> noteFirst ks u.
Proof.
  intros Hks. rewrite keys_credit, Hks. unfold noteFirst.
  destruct (decide (u ∈ ks)) as [Hin|Hnin].
  - rewrite decide_True; [done|]. by apply list_elem_of_fmap_2.
  - rewrite decide_False; [by rewrite fmap_app|].
    intros Hin. apply Hnin.
    apply list_elem_of_fmap in Hin as (x & Hx & Hin).
    apply ToString_inj in Hx. by subst.
Qed.

Lemma student_keys_step (e : Event) (S : gmap string Session) (T : JS.object Z)
    (ks : list Z) :
  T.*1 = JS.ToString <$> ks →
  (PerStudent.processEvent e (S, T)).2.*1
  = JS.ToString <$> match studentCredited e S with
                    | Some u => noteFirst ks u
                    | None => ks
                    end.
Proof.
  intros Hks. unfold PerStudent.processEvent, studentCredited.
  repeat case_decide; try done; try congruence.
  unfold PerStudent.finishSession.
  destruct (S !! _) as [s|]; [|done]. simpl.
  destruct (_ && _); [|done]. by apply keys_credit_id.
Qed.

Lemma student_keys_run (events : list Event) :
  ∀ (st : gmap string Session * JS.object Z) (ks : list Z),
    st.2.*1 = JS.ToString <$> ks →
    (PerStudent.run events st).2.*1
    = JS.ToString <$> fold_left noteFirst (studentContributions events st) ks.
Proof.
  induction events as [|e events IH]; intros [S T] ks Hks; [done|].
  unfold PerStudent.run. cbn [fold_left studentContributions].
  pose proof (student_keys_step e S T ks Hks) as Hstep.
  simpl in *. destruct (studentCredited e S) as [u|]; by apply IH.
Qed.

Lemma combined_keys_step (e : Event) (f : IdField) (S : gmap string Session)
    (T : JS.object Z) (ks : list Z) :
  T.*1 = JS.ToString <$> ks →
  (Combined.processEvent e (S, T) f).2.*1
  = JS.ToString <$> match combinedCredited f e S with
                    | Some u => noteFirst ks u
                    | None => ks
                    end.
Proof.
  intros Hks. unfold Combined.processEvent, combinedCredited.
  repeat case_decide; try done; try congruence.
  unfold Combined.finishSession.
  destruct (S !! _) as [s|]; [|done]. simpl.
  destruct (_ && _); [|done]. by apply keys_credit_id.
Qed.

Lemma combined_keys_run (f : IdField) (events : list Event) :
  ∀ (st : gmap string Session * JS.object Z) (ks : list Z),
    st.2.*1 = JS.ToString <$> ks →
    (Combined.run events f st).2.*1
    = JS.ToString <$> fold_left noteFirst (combinedContributions f events st) ks.
Proof.
  induction events as [|e events IH]; intros [S T] ks Hks; [done|].
  unfold Combined.run. cbn [fold_left combinedContributions].
  pose proof (combined_keys_step e f S T ks Hks) as Hstep.
  simpl in *. destruct (combinedCredited f e S) as [u|]; by apply IH.
Qed.

(** * The session tracker, one event at a time *)

Section Steps.

Implicit Types (S : gmap string Session) (T : JS.object Z) (e : Event).

(** The second conjunct of the per-student validity test never fails
    once the first holds: the test is [clientTime > startTime]. *)
Lemma student_valid (start t : Z) :
  (start <? t) && JS.truthy (t - start) = (start <? t).
Proof. unfold JS.truthy. destruct (Z.ltb_spec start t), (Z.eqb_spec (t - start) 0); simpl; lia. Qed.

Lemma student_finish_open key t S T u s :
  S !! key = Some s →
  PerStudent.finishSession key t S T u
  = (delete key S,
     if startTime s <? t
     then credit (JS.ToString u) (Z.max 0 (t - startTime s - pausedTime s)) T
     else T).
Proof.
  intros H. unfold PerStudent.finishSession. rewrite H, student_valid. done.
Qed.

Lemma student_finish_orphan key t S T u :
  S !! key = None → PerStudent.finishSession key t S T u = (S, T).
Proof. intros H. unfold PerStudent.finishSession. by rewrite H. Qed.

Lemma combined_finish_open key t S T i s :
  S !! key = Some s →
  Combined.finishSession key t S T i
  = (delete key S,
     if (startTime s <? t) && (t - startTime s <? 3600)
     then credit (JS.ToString i) (Z.max 0 (t - startTime s - pausedTime s)) T
     else T).
Proof. intros H. unfold Combined.finishSession. by rewrite H. Qed.

Lemma combined_finish_orphan key t S T i :
  S !! key = None → Combined.finishSession key t S T i = (S, T).
Proof. intros H. unfold Combined.finishSession. by rewrite H. Qed.

Lemma student_step_started e S T :
  action e = "started" →
  PerStudent.processEvent e (S, T)
  = (PerStudent.startSession (sessionKey (userId e) (taskId e)) (client_time e) S, T).
Proof. intros H. unfold PerStudent.processEvent. rewrite H. done. Qed.

Lemma student_step_paused e S T :
  action e = "paused" →
  PerStudent.processEvent e (S, T)
  = (PerStudent.pauseSession (sessionKey (userId e) (taskId e)) (client_time e) S, T).
Proof. intros H. unfold PerStudent.processEvent. rewrite H. done. Qed.

Lemma student_step_unpaused e S T :
  action e = "unpaused" →
  PerStudent.processEvent e (S, T)
  = (PerStudent.unpauseSession (sessionKey (userId e) (taskId e)) (client_time e) S, T).
Proof. intros H. unfold PerStudent.processEvent. rewrite H. done. Qed.

Lemma student_step_finished e S T :
  action e = "finished" →
  PerStudent.processEvent e (S, T)
  = PerStudent.finishSession (sessionKey (userId e) (taskId e)) (client_time e)
      S T (userId e).
Proof. intros H. unfold PerStudent.processEvent. rewrite H. done. Qed.

Lemma combined_step_finished e S T f :
  action e = "finished" →
  Combined.processEvent e (S, T) f
  = Combined.finishSession (sessionKey (eventField e f) (taskId e)) (client_time e)
      S T (eventField e f).
Proof. intros H. unfold Combined.processEvent. rewrite H. done. Qed.

(** Every step leaves [timeOnTask] alone or credits a non-negative
    amount to the identifier of the event. *)
Lemma student_totals_step e S T :
  (PerStudent.processEvent e (S, T)).2 = T ∨
  ∃ m, 0 ≤ m ∧ (PerStudent.processEvent e (S, T)).2 = credit (JS.ToString (userId e)) m T.
Proof.
  unfold PerStudent.processEvent. repeat case_decide; try (by left).
  unfold PerStudent.finishSession.
  destruct (S !! _) as [s|]; [|by left]. simpl.
  destruct (_ && _); [|by left].
  right. eexists. split; [|done]. lia.
Qed.

Lemma combined_totals_step e S T f :
  (Combined.processEvent e (S, T) f).2 = T ∨
  ∃ m, 0 ≤ m ∧
    (Combined.processEvent e (S, T) f).2 = credit (JS.ToString (eventField e f)) m T.
Proof.
  unfold Combined.processEvent. repeat case_decide; try (by left).
  unfold Combined.finishSession.
  destruct (S !! _) as [s|]; [|by left]. simpl.
  destruct (_ && _); [|by left].
  right. eexists. split; [|done]. lia.
Qed.

Lemma totalOf_credit_le (k : string) (m : Z) T (u : Z) :
  0 ≤ m → totalOf T u ≤ totalOf (credit k m T) u.
Proof.
  intros Hm. unfold totalOf. rewrite get_credit. case_decide as E; [|done].
  rewrite E. simpl. lia.
Qed.

Lemma student_step_mono e (st : gmap string Session * JS.object Z) (u : Z) :
  totalOf st.2 u ≤ totalOf (PerStudent.processEvent e st).2 u.
Proof.
  destruct st as [S T].
  destruct (student_totals_step e S T) as [->|(m & Hm & ->)]; [done|].
  by apply totalOf_credit_le.
Qed.

Lemma combined_step_mono e (st : gmap string Session * JS.object Z) f (u : Z) :
  totalOf st.2 u ≤ totalOf (Combined.processEvent e st f).2 u.
Proof.
  destruct st as [S T].
  destruct (combined_totals_step e S T f) as [->|(m & Hm & ->)]; [done|].
  by apply totalOf_credit_le.
Qed.

Lemma student_run_mono (evs : list Event) (st : gmap string Session * JS.object Z) (u : Z) :
  totalOf st.2 u ≤ totalOf (PerStudent.run evs st).2 u.
Proof.
  revert st. induction evs as [|e evs IH]; intros st; simpl; [done|].
  etrans; [apply (student_step_mono e)|]. apply IH.
Qed.

Lemma combined_run_mono (evs : list Event) f (st : gmap string Session * JS.object Z) (u : Z) :
  totalOf st.2 u ≤ totalOf (Combined.run evs f st).2 u.
Proof.
  revert st. induction evs as [|e evs IH]; intros st; simpl; [done|].
  etrans; [apply (combined_step_mono e _ f)|]. apply IH.
Qed.

Lemma student_finish_amount e S T s :
  action e = "finished" →
  S !! sessionKey (userId e) (taskId e) = Some s →
  startTime s < client_time e →
  totalOf (PerStudent.processEvent e (S, T)).2 (userId e)
  = totalOf T (userId e) + Z.max 0 (client_time e - startTime s - pausedTime s).
Proof.
  intros Ha Hs Hlt.
  rewrite student_step_finished, (student_finish_open _ _ _ _ _ s) by done.
  simpl. destruct (Z.ltb_spec (startTime s) (client_time e)); [|lia].
  by rewrite totalOf_credit, decide_True.
Qed.

Lemma combined_finish_amount e S T f s :
  action e = "finished" →
  S !! sessionKey (eventField e f) (taskId e) = Some s →
  startTime s < client_time e → client_time e - startTime s < 3600 →
  totalOf (Combined.processEvent e (S, T) f).2 (eventField e f)
  = totalOf T (eventField e f)
    + Z.max 0 (client_time e - startTime s - pausedTime s).
Proof.
  intros Ha Hs Hlt Hspan.
  rewrite combined_step_finished, (combined_finish_open _ _ _ _ _ s) by done.
  simpl. destruct (Z.ltb_spec (startTime s) (client_time e)); [|lia].
  destruct (Z.ltb_spec (client_time e - startTime s) 3600); [|lia].
  simpl. by rewrite totalOf_credit, decide_True.
Qed.

(** ** The invariant of the session table *)

Lemma sessions_ok_empty : sessions_ok ∅.
Proof. intros k s H. by rewrite lookup_empty in H. Qed.

Lemma sessions_ok_insert key s S :
  session_ok s → sessions_ok S → sessions_ok (<[key := s]> S).
Proof.
  intros Hs HS k s'. rewrite lookup_insert. case_decide.
  - by intros [= <-].
  - apply HS.
Qed.

Lemma sessions_ok_delete key S : sessions_ok S → sessions_ok (delete key S).
Proof.
  intros HS k s'. rewrite lookup_delete. case_decide; [done | apply HS].
Qed.

Lemma startSession_ok key t S :
  sessions_ok S → sessions_ok (PerStudent.startSession key t S).
Proof.
  intros HS. unfold PerStudent.startSession.
  destruct (S !! key); [done|]. by apply sessions_ok_insert.
Qed.

Lemma pauseSession_ok key t S :
  sessions_ok S → sessions_ok (PerStudent.pauseSession key t S).
Proof.
  intros HS. unfold PerStudent.pauseSession.
  destruct (S !! key) as [s|]; [|done]. destruct (isPaused s); [done|].
  simpl. apply sessions_ok_insert; [|done]. intros _. by eexists.
Qed.

Lemma unpauseSession_ok key t S :
  sessions_ok S → sessions_ok (PerStudent.unpauseSession key t S).
Proof.
  intros HS. unfold PerStudent.unpauseSession.
  destruct (S !! key) as [s|]; [|done]. destruct (isPaused s); [|done].
  destruct (pauseStartTime s); [|done].
  by apply sessions_ok_insert.
Qed.

Lemma student_sessions_ok_step e (st : gmap string Session * JS.object Z) :
  sessions_ok st.1 → sessions_ok (PerStudent.processEvent e st).1.
Proof.
  destruct st as [S T]. simpl. intros HS. unfold PerStudent.processEvent.
  repeat case_decide; simpl;
    auto using startSession_ok, pauseSession_ok, unpauseSession_ok.
  unfold PerStudent.finishSession. destruct (S !! _); simpl; [|done].
  by apply sessions_ok_delete.
Qed.

Lemma student_sessions_ok_run (evs : list Event) (st : gmap string Session * JS.object Z) :
  sessions_ok st.1 → sessions_ok (PerStudent.run evs st).1.
Proof.
  revert st. induction evs as [|e evs IH]; intros st HS; simpl; [done|].
  by apply IH, student_sessions_ok_step.
Qed.

Lemma combined_sessions_ok_step e (st : gmap string Session * JS.object Z) f :
  sessions_ok st.1 → sessions_ok (Combined.processEvent e st f).1.
Proof.
  destruct st as [S T]. simpl. intros HS. unfold Combined.processEvent.
  repeat case_decide; simpl; try done.
  - by apply startSession_ok.
  - by apply pauseSession_ok.
  - by apply unpauseSession_ok.
  - unfold Combined.finishSession. destruct (S !! _); simpl; [|done].
    by apply sessions_ok_delete.
Qed.

Lemma combined_sessions_ok_run (evs : list Event) f (st : gmap string Session * JS.object Z) :
  sessions_ok st.1 → sessions_ok (Combined.run evs f st).1.
Proof.
  revert st. induction evs as [|e evs IH]; intros st HS; simpl; [done|].
  by apply IH, combined_sessions_ok_step.
Qed.

(** ** One session among the others *)

(** An event on another key does not touch the session of [key]. *)
Lemma student_step_frame e S T key :
  ¬ onKey key e → (PerStudent.processEvent e (S, T)).1 !! key = S !! key.
Proof.
  unfold onKey. intros Hne. unfold PerStudent.processEvent.
  set (k := sessionKey (userId e) (taskId e)) in *.
  repeat case_decide; simpl; try done.
  - unfold PerStudent.startSession. destruct (S !! k); [done|].
    by rewrite lookup_insert_ne.
  - unfold PerStudent.pauseSession. destruct (S !! k) as [s|]; [|done].
    destruct (isPaused s); simpl; [done|]. by rewrite lookup_insert_ne.
  - unfold PerStudent.unpauseSession. destruct (S !! k) as [s|]; [|done].
    destruct (isPaused s); [|done]. destruct (pauseStartTime s); [|done].
    by rewrite lookup_insert_ne.
  - unfold PerStudent.finishSession. destruct (S !! k) as [s|]; [|done].
    simpl. by rewrite lookup_delete_ne.
Qed.

(** An event on the key of an open session, other than [finished], keeps
    the session open with its start time, and moves [pausedTime] and the
    pause state as the specification describes. *)
Lemma student_step_own e S T key s (tr : list (string * Z)) :
  onKey key e → S !! key = Some s → session_ok s → action e ≠ "finished" →
  ∃ s', (PerStudent.processEvent e (S, T)).1 !! key = Some s'
    ∧ startTime s' = startTime s ∧ session_ok s'
    ∧ pausedTime s' + pauseTotal (completedPauses (pendingOf s') tr)
      = pausedTime s
        + pauseTotal (completedPauses (pendingOf s) ((action e, client_time e) :: tr)).
Proof.
  unfold onKey. intros Hk Hs Hok Hnf. unfold PerStudent.processEvent.
  rewrite Hk. cbn [completedPauses].
  destruct (decide (action e = "started")) as [Ha|Hns].
  { rewrite Ha. simpl. unfold PerStudent.startSession. rewrite Hs.
    by exists s. }
  destruct (decide (action e = "paused")) as [Ha|Hnp].
  { simpl. unfold PerStudent.pauseSession, pendingOf. rewrite Hs.
    destruct (isPaused s) eqn:Hp; simpl.
    - destruct (Hok Hp) as [p Hq]. exists s. rewrite Hp, Hq. done.
    - eexists. rewrite lookup_insert_eq. split_and!; [done | done | | done].
      intros _. by eexists. }
  destruct (decide (action e = "unpaused")) as [Ha|Hnu].
  { simpl. unfold PerStudent.unpauseSession, pendingOf. rewrite Hs.
    destruct (isPaused s) eqn:Hp; simpl.
    - destruct (Hok Hp) as [p Hq]. rewrite Hq.
      eexists. rewrite lookup_insert_eq. split_and!; [done | done | done |].
      simpl. lia.
    - exists s. rewrite Hp. done. }
  rewrite decide_False by done. simpl. by exists s.
Qed.

Lemma student_track key (mid : list Event) :
  ∀ S T s,
    S !! key = Some s → session_ok s →
    (∀ e, e ∈ mid → onKey key e → action e ≠ "finished") →
    ∃ s', (PerStudent.run mid (S, T)).1 !! key = Some s'
      ∧ startTime s' = startTime s
      ∧ pausedTime s'
        = pausedTime s + pauseTotal (completedPauses (pendingOf s) (traceOf key mid)).
Proof.
  induction mid as [|e mid IH]; intros S T s Hs Hok Hnf.
  - exists s. split_and!; [done | done |]. simpl. lia.
  - unfold PerStudent.run. cbn [fold_left].
    destruct (PerStudent.processEvent e (S, T)) as [S' T'] eqn:E.
    assert (∀ e', e' ∈ mid → onKey key e' → action e' ≠ "finished") as Hnf'.
    { intros e' Hin. apply Hnf. by right. }
    unfold traceOf. rewrite filter_cons.
    destruct (decide (onKey key e)) as [Hon|Hoff].
    + destruct (student_step_own e S T key s (traceOf key mid) Hon Hs Hok)
        as (s1 & Hs1 & Hst & Hok1 & Hacc).
      { apply Hnf; [left | done]. }
      rewrite E in Hs1. simpl in Hs1.
      destruct (IH S' T' s1 Hs1 Hok1 Hnf') as (s' & Hs' & Hst' & Hacc').
      exists s'. split_and!; [done | congruence |].
      rewrite fmap_cons. fold (traceOf key mid). lia.
    + pose proof (student_step_frame e S T key Hoff) as Hfr.
      rewrite E in Hfr. simpl in Hfr. rewrite Hs in Hfr.
      destruct (IH S' T' s Hfr Hok Hnf') as (s' & Hs' & Hst' & Hacc').
      by exists s'.
Qed.

End Steps.

(** * Validity and accumulation *)

(** C2. The span bound differs by path.  In [combined.js] (and in
    [perClass.js]) a finished session whose span reaches 3600 seconds
    leaves [timeOnTask] as it was, so [started (0), finished (4000)]
    contributes nothing; in [perStudent.js] any session with
    [clientTime > startTime] contributes, whatever its span, and the same
    pair gives the student a total of 4000. *)
Theorem C2_span_bound_by_path :
  (∀ e (S : gmap string Session) (T : JS.object Z) f s,
     action e = "finished" →
     S !! sessionKey (eventField e f) (taskId e) = Some s →
     3600 ≤ client_time e - startTime s →
     (Combined.processEvent e (S, T) f).2 = T)
  ∧ (∀ e (S : gmap string Session) (T : JS.object Z) f s,
     action e = "finished" →
     S !! sessionKey (eventField e f) (taskId e) = Some s →
     startTime s < client_time e → client_time e - startTime s < 3600 →
     totalOf (Combined.processEvent e (S, T) f).2 (eventField e f)
     = totalOf T (eventField e f)
       + Z.max 0 (client_time e - startTime s - pausedTime s))
  ∧ (∀ f, Combined.processEvents [started 1 7 "t" 0; finished 1 7 "t" 4000] f
          = JS.empty)
  ∧ (∀ f, PerClass.processEvents [started 1 7 "t" 0; finished 1 7 "t" 4000] f
          = JS.empty)
  ∧ (∀ e (S : gmap string Session) (T : JS.object Z) s,
     action e = "finished" →
     S !! sessionKey (userId e) (taskId e) = Some s →
     startTime s < client_time e →
     totalOf (PerStudent.processEvent e (S, T)).2 (userId e)
     = totalOf T (userId e)
       + Z.max 0 (client_time e - startTime s - pausedTime s))
  ∧ PerStudent.processEvents [started 1 7 "t" 0; finished 1 7 "t" 4000]
    = [("1", 4000)].
Proof.
  split_and!.
  - intros e S T f s Ha Hs Hspan.
    rewrite combined_step_finished, (combined_finish_open _ _ _ _ _ s) by done.
    simpl. destruct (Z.ltb_spec (client_time e - startTime s) 3600); [lia|].
    by rewrite andb_false_r.
  - intros e S T f s Ha Hs Hlt Hspan. by apply combined_finish_amount.
  - by intros [].
  - by intros [].
  - intros e S T s Ha Hs Hlt. by apply student_finish_amount.
  - done.
Qed.

(** C4. A [finished] event whose key has no open session changes
    neither [activeSessions] nor [timeOnTask], in the per-student and in
    the combined engine; [finished (5)] alone yields no total. *)
Theorem C4_orphan_finish :
  (∀ e (S : gmap string Session) (T : JS.object Z),
     action e = "finished" →
     S !! sessionKey (userId e) (taskId e) = None →
     PerStudent.processEvent e (S, T) = (S, T))
  ∧ (∀ e (S : gmap string Session) (T : JS.object Z) f,
     action e = "finished" →
     S !! sessionKey (eventField e f) (taskId e) = None →
     Combined.processEvent e (S, T) f = (S, T))
  ∧ PerStudent.run [finished 1 7 "t" 5] (∅, JS.empty) = (∅, JS.empty)
  ∧ (∀ f, Combined.run [finished 1 7 "t" 5] f (∅, JS.empty) = (∅, JS.empty))
  ∧ PerStudent.formatTimeOnTaskResult (PerStudent.processEvents [finished 1 7 "t" 5])
    = [].
Proof.
  split_and!.
  - intros e S T Ha Hs.
    by rewrite student_step_finished, student_finish_orphan.
  - intros e S T f Ha Hs.
    by rewrite combined_step_finished, combined_finish_orphan.
  - done.
  - by intros [].
  - done.
Qed.

(** C5. For a finished session judged valid the amount added to the
    total of its entity is [max (0, (endTime - startTime) - pausedTime)]:
    when the accumulated pause exceeds the span nothing is added, and no
    event ever makes a total decrease, in the per-student and in the
    combined engine.  The unbalanced stream [started (100),
    paused (105), unpaused (130), finished (120)] leaves the student
    at 0. *)
Theorem C5_nonnegative_floor :
  (∀ e (S : gmap string Session) (T : JS.object Z) s,
     action e = "finished" →
     S !! sessionKey (userId e) (taskId e) = Some s →
     startTime s < client_time e →
     let T' := (PerStudent.processEvent e (S, T)).2 in
     totalOf T' (userId e)
     = totalOf T (userId e) + Z.max 0 (client_time e - startTime s - pausedTime s)
     ∧ (client_time e - startTime s < pausedTime s →
        totalOf T' (userId e) = totalOf T (userId e)))
  ∧ (∀ e (S : gmap string Session) (T : JS.object Z) f s,
     action e = "finished" →
     S !! sessionKey (eventField e f) (taskId e) = Some s →
     startTime s < client_time e → client_time e - startTime s < 3600 →
     let T' := (Combined.processEvent e (S, T) f).2 in
     totalOf T' (eventField e f)
     = totalOf T (eventField e f)
       + Z.max 0 (client_time e - startTime s - pausedTime s)
     ∧ (client_time e - startTime s < pausedTime s →
        totalOf T' (eventField e f) = totalOf T (eventField e f)))
  ∧ (∀ e st u, totalOf st.2 u ≤ totalOf (PerStudent.processEvent e st).2 u)
  ∧ (∀ e st f u, totalOf st.2 u ≤ totalOf (Combined.processEvent e st f).2 u)
  ∧ (∀ evs st u, totalOf st.2 u ≤ totalOf (PerStudent.run evs st).2 u)
  ∧ (∀ evs f st u, totalOf st.2 u ≤ totalOf (Combined.run evs f st).2 u)
  ∧ PerStudent.processEvents
      [started 1 7 "t" 100; paused 1 7 "t" 105; unpaused 1 7 "t" 130;
       finished 1 7 "t" 120]
    = [("1", 0)].
Proof.
  split_and!.
  - intros e S T s Ha Hk Hlt T'. subst T'.
    rewrite (student_finish_amount e S T s) by done. split; [done | lia].
  - intros e S T f s Ha Hk Hlt Hspan T'. subst T'.
    rewrite (combined_finish_amount e S T f s) by done. split; [done | lia].
  - apply student_step_mono.
  - apply combined_step_mono.
  - apply student_run_mono.
  - apply combined_run_mono.
  - done.
Qed.

(** C7. A [finished] event whose key has an open session removes that
    session whether or not the session is judged valid, and an invalid
    session (end not after start; in the capped path also a span of 3600
    or more) leaves [timeOnTask] exactly as it was. *)
Theorem C7_finish_always_discards :
  (∀ e (S : gmap string Session) (T : JS.object Z) s,
     action e = "finished" →
     S !! sessionKey (userId e) (taskId e) = Some s →
     let st' := PerStudent.processEvent e (S, T) in
     st'.1 = delete (sessionKey (userId e) (taskId e)) S
     ∧ st'.1 !! sessionKey (userId e) (taskId e) = None
     ∧ (client_time e ≤ startTime s → st'.2 = T))
  ∧ (∀ e (S : gmap string Session) (T : JS.object Z) f s,
     action e = "finished" →
     S !! sessionKey (eventField e f) (taskId e) = Some s →
     let st' := Combined.processEvent e (S, T) f in
     st'.1 = delete (sessionKey (eventField e f) (taskId e)) S
     ∧ st'.1 !! sessionKey (eventField e f) (taskId e) = None
     ∧ (client_time e ≤ startTime s ∨ 3600 ≤ client_time e - startTime s →
        st'.2 = T))
  ∧ PerStudent.run [started 1 7 "t" 10; finished 1 7 "t" 5] (∅, JS.empty)
    = (∅, JS.empty)
  ∧ (∀ f, Combined.run [started 1 7 "t" 0; finished 1 7 "t" 4000] f (∅, JS.empty)
          = (∅, JS.empty)).
Proof.
  split_and!.
  - intros e S T s Ha Hs st'. subst st'.
    rewrite student_step_finished, (student_finish_open _ _ _ _ _ s) by done.
    simpl. split_and!; [done | apply lookup_delete_eq |].
    intros Hle. by destruct (Z.ltb_spec (startTime s) (client_time e)); [lia|].
  - intros e S T f s Ha Hs st'. subst st'.
    rewrite combined_step_finished, (combined_finish_open _ _ _ _ _ s) by done.
    simpl. split_and!; [done | apply lookup_delete_eq |].
    intros Hinv.
    destruct (Z.ltb_spec (startTime s) (client_time e)); [|done].
    destruct (Z.ltb_spec (client_time e - startTime s) 3600); [lia | done].
  - done.
  - by intros [].
Qed.

(** C1, as stated, fails: the contribution is not always
    [(endTime - startTime) - pausedTime].  With more pause than span
    ([started (100), paused (105), unpaused (130), finished (120)]) the
    formula gives -5 and the engine credits 0; with an end that is not
    after the start ([started (10), paused (8), unpaused (2),
    finished (9)]) the formula gives 5 and the engine credits nothing. *)
Lemma C1_counterexample :
  PerStudent.processEvents
    [started 1 7 "t" 100; paused 1 7 "t" 105; unpaused 1 7 "t" 130;
     finished 1 7 "t" 120]
  = [("1", 0)]
  ∧ (120 - 100) - pauseTotal (completedPauses None [("paused", 105); ("unpaused", 130)])
    = -5
  ∧ PerStudent.processEvents
      [started 1 7 "t" 10; paused 1 7 "t" 8; unpaused 1 7 "t" 2; finished 1 7 "t" 9]
    = []
  ∧ (9 - 10) - pauseTotal (completedPauses None [("paused", 8); ("unpaused", 2)])
    = 5.
Proof. done. Qed.

(** The session a [finished] event meets, when it was opened by
    [started (t0)] on a key without session and no [finished] on the key
    came in between: it starts at [t0] and its [pausedTime] is the sum
    of the deltas of the pauses completed on the key. *)
Lemma student_session_at_finish (u c : Z) (task : string) (t0 : Z)
    (mid : list Event) (S : gmap string Session) (T : JS.object Z) :
  S !! sessionKey u task = None →
  (∀ e, e ∈ mid → onKey (sessionKey u task) e → action e ≠ "finished") →
  ∃ s', (PerStudent.run (started u c task t0 :: mid) (S, T)).1 !! sessionKey u task
        = Some s'
    ∧ startTime s' = t0
    ∧ pausedTime s'
      = pauseTotal (completedPauses None (traceOf (sessionKey u task) mid)).
Proof.
  intros Hnone Hmid. set (key := sessionKey u task) in *.
  destruct (student_track key mid
              (<[key := mkSession t0 0 false None]> S) T (mkSession t0 0 false None))
    as (s' & Hs' & Hst & Hacc); [apply lookup_insert_eq | done | done |].
  simpl in Hst, Hacc. exists s'. split_and!; [|done|done].
  rewrite <- Hs'. f_equal. f_equal.
  unfold PerStudent.run. cbn [fold_left].
  rewrite (student_step_started (started u c task t0)) by done.
  simpl. unfold PerStudent.startSession. fold key. by rewrite Hnone.
Qed.

(** C1, amended.  A session opened by [started (t0)] on a key without
    session and finished at [t1], with any events in between (on this
    key or on others, none of them a [finished] on this key): when
    [t1 > t0] it adds [max (0, (t1 - t0) - acc)] to the total of its
    student, where [acc] is the sum of the (unpause - pause) deltas of
    the pause/unpause pairs completed on the key, that is
    [(t1 - t0) - acc] whenever [acc] does not exceed the span; when
    [t1 <= t0] it contributes nothing, [timeOnTask] stays as it was.
    Either way the session is then gone.  In particular
    [started (0), paused (10), unpaused (15), finished (20)] yields a
    total of 15. *)
Theorem C1_pause_subtraction :
  (∀ (u c c' : Z) (task : string) (t0 t1 : Z) (mid : list Event)
     (S : gmap string Session) (T : JS.object Z),
     S !! sessionKey u task = None →
     (∀ e, e ∈ mid → onKey (sessionKey u task) e → action e ≠ "finished") →
     t0 < t1 →
     let acc := pauseTotal (completedPauses None (traceOf (sessionKey u task) mid)) in
     let before := PerStudent.run (started u c task t0 :: mid) (S, T) in
     let after := PerStudent.processEvent (finished u c' task t1) before in
     totalOf after.2 u = totalOf before.2 u + Z.max 0 ((t1 - t0) - acc)
     ∧ (acc ≤ t1 - t0 → totalOf after.2 u = totalOf before.2 u + ((t1 - t0) - acc))
     ∧ after.1 !! sessionKey u task = None)
  ∧ (∀ (u c c' : Z) (task : string) (t0 t1 : Z) (mid : list Event)
       (S : gmap string Session) (T : JS.object Z),
       S !! sessionKey u task = None →
       (∀ e, e ∈ mid → onKey (sessionKey u task) e → action e ≠ "finished") →
       t1 ≤ t0 →
       let before := PerStudent.run (started u c task t0 :: mid) (S, T) in
       let after := PerStudent.processEvent (finished u c' task t1) before in
       after.2 = before.2
       ∧ (∀ u', totalOf after.2 u' = totalOf before.2 u')
       ∧ after.1 !! sessionKey u task = None)
  ∧ PerStudent.processEvents
      [started 1 7 "t" 0; paused 1 7 "t" 10; unpaused 1 7 "t" 15; finished 1 7 "t" 20]
    = [("1", 15)].
Proof.
  split_and!; [| |done].
  - intros u c c' task t0 t1 mid S T Hnone Hmid Hlt acc before after.
    destruct (student_session_at_finish u c task t0 mid S T Hnone Hmid)
      as (s' & Hs' & Hst & Hacc).
    fold before in Hs'. fold acc in Hacc.
    set (key := sessionKey u task) in *.
    destruct before as [S1 T1]. simpl in Hs'.
    assert (totalOf after.2 u = totalOf T1 u + Z.max 0 (t1 - t0 - acc)) as Hamount.
    { subst after.
      pose proof (student_finish_amount (finished u c' task t1) S1 T1 s' eq_refl Hs')
        as H.
      change (userId (finished u c' task t1)) with u in H.
      change (client_time (finished u c' task t1)) with t1 in H.
      rewrite H by lia. rewrite Hst, Hacc. f_equal. }
    split_and!.
    + done.
    + intros Hle. simpl. rewrite Hamount. lia.
    + subst after. rewrite (student_step_finished (finished u c' task t1)) by done.
      simpl. fold key. rewrite (student_finish_open _ _ _ _ _ s') by done.
      simpl. apply lookup_delete_eq.
  - intros u c c' task t0 t1 mid S T Hnone Hmid Hle before after.
    destruct (student_session_at_finish u c task t0 mid S T Hnone Hmid)
      as (s' & Hs' & Hst & _).
    fold before in Hs'.
    set (key := sessionKey u task) in *.
    destruct before as [S1 T1]. simpl in Hs'.
    assert (after = (delete key S1, T1)) as ->.
    { subst after. rewrite (student_step_finished (finished u c' task t1)) by done.
      simpl. fold key. rewrite (student_finish_open _ _ _ _ _ s') by done.
      simpl. rewrite Hst. by destruct (Z.ltb_spec t0 t1); [lia|]. }
    simpl. split_and!; [done | done | apply lookup_delete_eq].
Qed.

Lemma C1_pause_subtraction_witness :
  totalOf
    (PerStudent.processEvents
       [started 1 7 "t" 0; paused 1 7 "t" 10; finished 2 7 "t" 12;
        unpaused 1 7 "t" 15; paused 1 7 "t" 16; finished 1 7 "t" 20]) 1
  = 15
  ∧ PerStudent.processEvents
      [started 1 7 "t" 10; paused 1 7 "t" 8; unpaused 1 7 "t" 2; finished 1 7 "t" 9]
    = [].
Proof.
  split.
  - destruct (proj1 C1_pause_subtraction 1 7 7 "t" 0 20
                [paused 1 7 "t" 10; finished 2 7 "t" 12; unpaused 1 7 "t" 15;
                 paused 1 7 "t" 16] ∅ JS.empty) as (H & _ & _).
    + apply lookup_empty.
    + intros e He Hk. repeat (apply elem_of_cons in He as [->|He]); try done.
      by apply elem_of_nil in He.
    + lia.
    + exact H.
  - destruct (proj1 (proj2 C1_pause_subtraction) 1 7 7 "t" 10 9
                [paused 1 7 "t" 8; unpaused 1 7 "t" 2] ∅ JS.empty) as (H & _ & _).
    + apply lookup_empty.
    + intros e He Hk. repeat (apply elem_of_cons in He as [->|He]); try done.
      by apply elem_of_nil in He.
    + lia.
    + exact H.
Defined.

(** * The state machine of a session *)

(** C3. A second [started] on a key whose session is open changes
    nothing: after [started (t1)] the state is the same with or without
    [started (t2)], so [started (t1), started (t2), finished (t3)] and
    [started (t1), finished (t3)] end in the same tables from any state,
    and from the empty state both credit [t3 - t1] to the student. *)
Theorem C3_duplicate_start_idempotent (u c1 c2 c3 : Z) (task : string) (t1 t2 t3 : Z) :
  t1 < t2 → t2 < t3 →
  let s1 := started u c1 task t1 in
  let s2 := started u c2 task t2 in
  let f3 := finished u c3 task t3 in
  (∀ st, PerStudent.processEvent s2 (PerStudent.processEvent s1 st)
         = PerStudent.processEvent s1 st)
  ∧ (∀ st, PerStudent.run [s1; s2; f3] st = PerStudent.run [s1; f3] st)
  ∧ PerStudent.processEvents [s1; s2; f3] = [(JS.ToString u, t3 - t1)]
  ∧ PerStudent.processEvents [s1; f3] = [(JS.ToString u, t3 - t1)].
Proof.
  intros H12 H23 s1 s2 f3.
  assert (∀ st, PerStudent.processEvent s2 (PerStudent.processEvent s1 st)
                = PerStudent.processEvent s1 st) as Hdup.
  { intros [S T]. subst s1 s2.
    rewrite (student_step_started (started u c1 task t1)) by done.
    rewrite (student_step_started (started u c2 task t2)) by done.
    simpl. f_equal. unfold PerStudent.startSession.
    destruct (S !! sessionKey u task) as [s|] eqn:E.
    - by rewrite E.
    - by rewrite lookup_insert_eq. }
  assert (PerStudent.processEvents [s1; f3] = [(JS.ToString u, t3 - t1)]) as Hrun.
  { unfold PerStudent.processEvents, PerStudent.run. simpl.
    unfold PerStudent.startSession. rewrite lookup_empty.
    erewrite student_finish_open by apply lookup_insert_eq.
    simpl. destruct (Z.ltb_spec t1 t3); [|lia].
    unfold credit, JS.add_assign. simpl.
    rewrite decide_True by done. simpl. rewrite decide_True by done.
    do 2 f_equal. lia. }
  split_and!; [done | | | done].
  - intros st. unfold PerStudent.run. cbn [fold_left]. by rewrite Hdup.
  - rewrite <- Hrun. unfold PerStudent.processEvents, PerStudent.run.
    cbn [fold_left]. by rewrite Hdup.
Qed.

Lemma C3_duplicate_start_witness :
  PerStudent.processEvents [started 1 7 "t" 0; started 1 7 "t" 4; finished 1 7 "t" 9]
  = [("1", 9)].
Proof.
  pose proof (C3_duplicate_start_idempotent 1 7 7 7 "t" 0 4 9) as H.
  simpl in H. apply H; lia.
Defined.

(** C6. The table holds at most one session per (entity, task): it is
    a map from session keys, distinct pairs have distinct keys, and
    [started] on a key that has a session leaves the table as it is.
    [paused] acts only on an open session that is not paused, where it
    records [pauseStartTime] and sets [isPaused]; [unpaused] acts only on
    a paused session, where it adds the pause delta to [pausedTime] and
    clears [isPaused].  In every table the engine reaches, a paused
    session has its [pauseStartTime]. *)
Theorem C6_session_state_machine :
  (∀ a b t u, sessionKey a t = sessionKey b u → a = b ∧ t = u)
  ∧ (∀ key t (S : gmap string Session),
       is_Some (S !! key) → PerStudent.startSession key t S = S)
  ∧ (∀ key t (S : gmap string Session),
       (∀ s, S !! key = Some s → isPaused s = true) →
       PerStudent.pauseSession key t S = S)
  ∧ (∀ key t (S : gmap string Session) s,
       S !! key = Some s → isPaused s = false →
       PerStudent.pauseSession key t S
       = <[key := {| startTime := startTime s; pausedTime := pausedTime s;
                     isPaused := true; pauseStartTime := Some t |}]> S)
  ∧ (∀ key t (S : gmap string Session),
       (∀ s, S !! key = Some s → isPaused s = false) →
       PerStudent.unpauseSession key t S = S)
  ∧ (∀ key t (S : gmap string Session) s p,
       S !! key = Some s → isPaused s = true → pauseStartTime s = Some p →
       PerStudent.unpauseSession key t S
       = <[key := {| startTime := startTime s;
                     pausedTime := pausedTime s + (t - p);
                     isPaused := false; pauseStartTime := Some p |}]> S)
  ∧ (∀ e (S : gmap string Session) (T : JS.object Z),
       action e = "paused" →
       PerStudent.processEvent e (S, T)
       = (PerStudent.pauseSession (sessionKey (userId e) (taskId e))
            (client_time e) S, T))
  ∧ (∀ e (S : gmap string Session) (T : JS.object Z),
       action e = "unpaused" →
       PerStudent.processEvent e (S, T)
       = (PerStudent.unpauseSession (sessionKey (userId e) (taskId e))
            (client_time e) S, T))
  ∧ (∀ evs key s,
       (PerStudent.run evs (∅, JS.empty)).1 !! key = Some s →
       isPaused s = true → is_Some (pauseStartTime s)).
Proof.
  split_and!.
  - apply sessionKey_inj.
  - intros key t S [s Hs]. unfold PerStudent.startSession. by rewrite Hs.
  - intros key t S H. unfold PerStudent.pauseSession.
    destruct (S !! key) as [s|]; [|done]. by rewrite (H s).
  - intros key t S s Hs Hp. unfold PerStudent.pauseSession. by rewrite Hs, Hp.
  - intros key t S H. unfold PerStudent.unpauseSession.
    destruct (S !! key) as [s|]; [|done]. by rewrite (H s).
  - intros key t S s p' Hs Hp Hq. unfold PerStudent.unpauseSession.
    by rewrite Hs, Hp, Hq.
  - intros. by apply student_step_paused.
  - intros. by apply student_step_unpaused.
  - intros evs key s Hs.
    by apply (student_sessions_ok_run evs (∅, JS.empty) sessions_ok_empty key s).
Qed.

Lemma C6_session_state_machine_witness :
  PerStudent.unpauseSession "1-t" 15 {["1-t" := mkSession 0 0 true (Some 10)]}
  = <["1-t" := mkSession 0 (0 + (15 - 10)) false (Some 10)]>
      {["1-t" := mkSession 0 0 true (Some 10)]}.
Proof.
  destruct C6_session_state_machine as (_ & _ & _ & _ & _ & H & _).
  apply (H "1-t" 15 _ (mkSession 0 0 true (Some 10)) 10);
    [apply lookup_singleton_eq | done | done].
Defined.

(** * Result projection *)

(** C8, as stated, fails: the result is not in order of first
    contribution.  Student 2 contributes before student 1 (its property
    is created first), and the result lists student 1 first, in the
    per-student and in the combined formatter alike. *)
Lemma C8_counterexample :
  firstOccurrences (studentContributions twoThenOne (∅, JS.empty)) = [2; 1]
  ∧ PerStudent.processEvents twoThenOne = [("2", 60); ("1", 30)]
  ∧ PerStudent.formatTimeOnTaskResult (PerStudent.processEvents twoThenOne)
    = [ {| PerStudent.userId := Some 1;
           PerStudent.totalTimeOnTask := Some "00:00:30" |};
        {| PerStudent.userId := Some 2;
           PerStudent.totalTimeOnTask := Some "00:01:00" |} ]
  ∧ Combined.formatTimeOnTaskResult (Combined.processEvents twoThenOne userIdField)
    = [ {| Combined.id := Some 1; Combined.totalTimeOnTask := Some "00:00:30" |};
        {| Combined.id := Some 2; Combined.totalTimeOnTask := Some "00:01:00" |} ].
Proof. done. Qed.

(** C8, amended.  The result lists one record per entity that has a
    total, with that total: first the entities whose identifier is an
    array index ([0 <= id < 2^32 - 1]), in ascending order of
    identifier, then the others in the order of their first valid
    contribution.  This holds for the per-student formatter and for the
    combined one, on either dimension. *)
Theorem C8_result_order (events : list Event) (f : IdField) :
  (let T := PerStudent.processEvents events in
   let order := firstOccurrences (studentContributions events (∅, JS.empty)) in
   ∃ idx,
     PerStudent.formatTimeOnTaskResult T
     = (λ i, {| PerStudent.userId := Some i;
                PerStudent.totalTimeOnTask := JS.isoTimeOfDay (totalOf T i) |})
         <$> (idx ++ filter (λ i, ¬ isIndex i) order)%list
     ∧ idx ≡ₚ filter isIndex order
     ∧ StronglySorted Z.lt idx)
  ∧ (let T := Combined.processEvents events f in
     let order := firstOccurrences (combinedContributions f events (∅, JS.empty)) in
     ∃ idx,
       Combined.formatTimeOnTaskResult T
       = (λ i, {| Combined.id := Some i;
                  Combined.totalTimeOnTask := JS.isoTimeOfDay (totalOf T i) |})
           <$> (idx ++ filter (λ i, ¬ isIndex i) order)%list
       ∧ idx ≡ₚ filter isIndex order
       ∧ StronglySorted Z.lt idx).
Proof.
  split.
  - intros T order.
    assert (T.*1 = JS.ToString <$> order) as Hks
      by (by apply (student_keys_run events (∅, JS.empty) [])).
    assert (NoDup order) as Hnd by apply NoDup_fold_noteFirst, NoDup_nil_2.
    destruct (entries_keys T order Hks Hnd) as (idx & Hkeys & Hperm & Hsorted).
    exists idx. split_and!; [|done|done].
    unfold PerStudent.formatTimeOnTaskResult.
    rewrite (entries_values T) by (rewrite Hks; apply (NoDup_fmap_2 _); done).
    rewrite Hkeys.
    rewrite <- !list_fmap_compose.
    apply Forall_fmap_ext_1, Forall_forall. intros i _. simpl.
    by rewrite parseInt_ToString.
  - intros T order.
    assert (T.*1 = JS.ToString <$> order) as Hks
      by (by apply (combined_keys_run f events (∅, JS.empty) [])).
    assert (NoDup order) as Hnd by apply NoDup_fold_noteFirst, NoDup_nil_2.
    destruct (entries_keys T order Hks Hnd) as (idx & Hkeys & Hperm & Hsorted).
    exists idx. split_and!; [|done|done].
    unfold Combined.formatTimeOnTaskResult.
    rewrite (entries_values T) by (rewrite Hks; apply (NoDup_fmap_2 _); done).
    rewrite Hkeys.
    rewrite <- !list_fmap_compose.
    apply Forall_fmap_ext_1, Forall_forall. intros i _. simpl.
    by rewrite parseInt_ToString.
Qed.

(** * End to end *)

(** C9. The four events of user 1 on task "t" (started 0, paused 5,
    unpaused 8, finished 20) give a total of 17 seconds, and the
    formatter returns the single record with [userId] 1 and the clock
    string "00:00:17". *)
Theorem C9_scenario_per_student (c : Z) :
  let events :=
    [started 1 c "t" 0; paused 1 c "t" 5; unpaused 1 c "t" 8; finished 1 c "t" 20] in
  PerStudent.processEvents events = [("1", 17)]
  ∧ PerStudent.formatTimeOnTaskResult (PerStudent.processEvents events)
    = [ {| PerStudent.userId := Some 1;
           PerStudent.totalTimeOnTask := Some "00:00:17" |} ].
Proof. done. Qed.

(** C10. On the class dimension [combined.js] and [perClass.js] compute
    the same [timeOnTask]: their [processEvent] agree on every event and
    state, hence so do the loops and [processEvents] (whatever [idField]
    [perClass.js] is given, since it drops it). *)
Theorem C10_class_paths_agree :
  (∀ e st, Combined.processEvent e st classIdField = PerClass.processEvent e st)
  ∧ (∀ events st, Combined.run events classIdField st = PerClass.run events st)
  ∧ (∀ events f,
       Combined.processEvents events classIdField = PerClass.processEvents events f).
Proof.
  assert (∀ e st, Combined.processEvent e st classIdField = PerClass.processEvent e st)
    as Hstep by (by intros e [S T]).
  assert (∀ events st, Combined.run events classIdField st = PerClass.run events st)
    as Hrun.
  { induction events as [|e events IH]; intros st; [done|].
    unfold Combined.run, PerClass.run. cbn [fold_left].
    rewrite Hstep. apply IH. }
  split_and!; [done | done |].
  intros events f. unfold Combined.processEvents, PerClass.processEvents.
  by rewrite Hrun.
Qed.

(** * Further properties of the engines *)

(** ** Entities do not interfere *)

Section Independence.

Implicit Types (S : gmap string Session) (T : JS.object Z) (e : Event).

Lemma same_insert (u : Z) (key : string) (v : Session) S S' :
  (∀ task, S !! sessionKey u task = S' !! sessionKey u task) →
  ∀ task, <[key := v]> S !! sessionKey u task = <[key := v]> S' !! sessionKey u task.
Proof. intros H task. rewrite !lookup_insert. case_decide; [done | apply H]. Qed.

Lemma same_delete (u : Z) (key : string) S S' :
  (∀ task, S !! sessionKey u task = S' !! sessionKey u task) →
  ∀ task, delete key S !! sessionKey u task = delete key S' !! sessionKey u task.
Proof. intros H task. rewrite !lookup_delete. case_decide; [done | apply H]. Qed.

Lemma student_step_same_user e (u : Z) st st' :
  userId e = u → sameForUser u st st' →
  sameForUser u (PerStudent.processEvent e st) (PerStudent.processEvent e st').
Proof.
  destruct st as [S T], st' as [S' T']. intros <- [Hs Ht]. simpl in Hs, Ht.
  pose proof (Hs (taskId e)) as Hk.
  unfold PerStudent.processEvent.
  set (key := sessionKey (userId e) (taskId e)) in *.
  repeat case_decide; try (by split).
  - unfold PerStudent.startSession. rewrite <- Hk.
    destruct (S !! key); split; simpl; auto using same_insert.
  - unfold PerStudent.pauseSession. rewrite <- Hk.
    destruct (S !! key) as [s|]; [|by split].
    destruct (isPaused s); split; simpl; auto using same_insert.
  - unfold PerStudent.unpauseSession. rewrite <- Hk.
    destruct (S !! key) as [s|]; [|by split].
    destruct (isPaused s); [|by split].
    destruct (pauseStartTime s); split; simpl; auto using same_insert.
  - destruct (S !! key) as [s|] eqn:E.
    + rewrite (student_finish_open key _ S T _ s E).
      rewrite (student_finish_open key _ S' T' _ s) by congruence.
      split; simpl; [by apply same_delete|].
      destruct (_ <? _); [|done].
      rewrite !totalOf_credit, !decide_True by done. by rewrite Ht.
    + rewrite (student_finish_orphan key _ S T _ E).
      rewrite (student_finish_orphan key _ S' T') by congruence.
      by split.
Qed.

Lemma student_step_other_user e (u : Z) st st' :
  userId e ≠ u → sameForUser u st st' →
  sameForUser u (PerStudent.processEvent e st) st'.
Proof.
  destruct st as [S T], st' as [S' T']. intros Hne [Hs Ht]. simpl in Hs, Ht.
  split.
  - intros task. rewrite <- Hs. apply student_step_frame.
    unfold onKey. intros Hk. apply sessionKey_inj in Hk as [Hu _]. done.
  - change (totalOf (PerStudent.processEvent e (S, T)).2 u = totalOf T' u).
    rewrite <- Ht.
    destruct (student_totals_step e S T) as [->|(m & _ & ->)]; [done|].
    rewrite totalOf_credit. rewrite decide_False; [done | congruence].
Qed.

Lemma student_run_same_user (u : Z) (events : list Event) :
  ∀ st st', sameForUser u st st' →
    sameForUser u (PerStudent.run events st)
      (PerStudent.run (filter (λ e, userId e = u) events) st').
Proof.
  induction events as [|e events IH]; intros st st' H; [done|].
  rewrite filter_cons. unfold PerStudent.run. cbn [fold_left].
  case_decide.
  - cbn [fold_left]. by apply IH, student_step_same_user.
  - by apply IH, student_step_other_user.
Qed.

End Independence.

(** X1. The total of a student depends on the events of that student
    only: removing from the stream every event of the other students
    leaves the total, and the sessions still open on the keys of the
    student, as they were. *)
Theorem X1_student_total_independent (u : Z) (events : list Event) :
  let own := filter (λ e, userId e = u) events in
  totalOf (PerStudent.processEvents events) u = totalOf (PerStudent.processEvents own) u
  ∧ (∀ task, (PerStudent.run events (∅, JS.empty)).1 !! sessionKey u task
             = (PerStudent.run own (∅, JS.empty)).1 !! sessionKey u task).
Proof.
  intros own.
  destruct (student_run_same_user u events (∅, JS.empty) (∅, JS.empty)) as [Hs Ht];
    [by split|].
  by split.
Qed.

(** ** Complete sessions add up *)

Section Additivity.

Implicit Types (S : gmap string Session) (T : JS.object Z) (e : Event).

Lemma student_run_app (evs evs' : list Event) st :
  PerStudent.run (evs ++ evs') st = PerStudent.run evs' (PerStudent.run evs st).
Proof. unfold PerStudent.run. apply fold_left_app. Qed.

Lemma student_step_keeps_totals e S T :
  action e ≠ "finished" → (PerStudent.processEvent e (S, T)).2 = T.
Proof. intros H. unfold PerStudent.processEvent. by repeat case_decide. Qed.

Lemma student_run_keeps_totals (evs : list Event) :
  ∀ st, Forall (λ e, action e ≠ "finished") evs → (PerStudent.run evs st).2 = st.2.
Proof.
  induction evs as [|e evs IH]; intros [S T] H; [done|].
  apply Forall_cons in H as [He H].
  unfold PerStudent.run. cbn [fold_left]. fold (PerStudent.run evs).
  rewrite IH by done. by apply student_step_keeps_totals.
Qed.

Lemma student_run_frame (key : string) (evs : list Event) :
  ∀ st, Forall (λ e, ¬ onKey key e) evs →
        (PerStudent.run evs st).1 !! key = st.1 !! key.
Proof.
  induction evs as [|e evs IH]; intros [S T] H; [done|].
  apply Forall_cons in H as [He H].
  unfold PerStudent.run. cbn [fold_left]. fold (PerStudent.run evs).
  rewrite IH by done. by apply student_step_frame.
Qed.

Lemma block_trace (u c : Z) (task : string) (mid : list (string * Z)) :
  traceOf (sessionKey u task) ((λ a, mkEvent u c task a.1 a.2) <$> mid) = mid.
Proof.
  unfold traceOf. induction mid as [|[a t] mid IH]; [done|].
  rewrite fmap_cons, filter_cons, decide_True by done.
  rewrite fmap_cons. simpl. by rewrite IH.
Qed.

Lemma block_run (b : Block) S T :
  S !! sessionKey (blockUser b) (blockTask b) = None → blockOk b →
  PerStudent.run (blockEvents b) (S, T)
  = (S, if blockStart b <? blockEnd b
        then credit (JS.ToString (blockUser b))
               (Z.max 0 (blockEnd b - blockStart b
                         - pauseTotal (completedPauses None (blockMid b)))) T
        else T).
Proof.
  destruct b as [u c task t0 mid t1]. unfold blockOk, blockEvents. simpl.
  intros Hnone Hok.
  set (key := sessionKey u task) in *.
  set (mid' := (λ a, mkEvent u c task a.1 a.2) <$> mid).
  set (fresh := mkSession t0 0 false None).
  assert (Forall (λ e, action e ≠ "finished") mid') as Hnf.
  { subst mid'. apply Forall_fmap. by apply (Forall_impl _ _ _ Hok). }
  assert (Forall (onKey key) mid') as Hon.
  { subst mid'. apply Forall_fmap, Forall_forall. by intros a _. }
  change (started u c task t0 :: mid' ++ [finished u c task t1])%list
    with ([started u c task t0] ++ mid' ++ [finished u c task t1])%list.
  rewrite !student_run_app.
  assert (PerStudent.startSession key t0 S = <[key := fresh]> S) as ->.
  { unfold PerStudent.startSession. by rewrite Hnone. }
  destruct (student_track key mid' (<[key := fresh]> S) T fresh)
    as (s' & Hs' & Hst & Hacc); [apply lookup_insert_eq | done | |].
  { intros e He _. by apply (proj1 (Forall_forall _ _) Hnf). }
  pose proof (student_run_keeps_totals mid' (<[key := fresh]> S, T) Hnf) as HT.
  destruct (PerStudent.run mid' (<[key := fresh]> S, T)) as [S1 T1] eqn:E.
  simpl in Hs', HT, Hst, Hacc. subst T1.
  unfold PerStudent.run. cbn [fold_left].
  rewrite (student_step_finished (finished u c task t1)) by done.
  simpl. fold key. rewrite (student_finish_open key t1 S1 T u s' Hs').
  assert (traceOf key mid' = mid) as Htr by apply block_trace.
  rewrite Htr in Hacc. rewrite Hst, Hacc. f_equal.
  apply map_eq. intros k. rewrite lookup_delete.
  destruct (decide (key = k)) as [<-|Hne]; [done|].
  assert (S1 !! k = (<[key := fresh]> S) !! k) as ->.
  { change S1 with (S1, T).1. rewrite <- E. apply student_run_frame.
    apply (Forall_impl _ _ _ Hon). unfold onKey. congruence. }
  by rewrite lookup_insert_ne.
Qed.

Lemma totalOf_block (b : Block) T (u : Z) :
  totalOf (if blockStart b <? blockEnd b
           then credit (JS.ToString (blockUser b))
                  (Z.max 0 (blockEnd b - blockStart b
                            - pauseTotal (completedPauses None (blockMid b)))) T
           else T) u
  = totalOf T u + (if decide (blockUser b = u) then blockAmount b else 0).
Proof.
  unfold blockAmount. destruct (blockStart b <? blockEnd b).
  - rewrite totalOf_credit.
    destruct (decide (u = blockUser b)) as [->|Hne].
    + by rewrite decide_True.
    + rewrite decide_False by congruence. lia.
  - case_decide; lia.
Qed.

Lemma blocks_run (blocks : list Block) :
  ∀ T, Forall blockOk blocks →
    ∃ T', PerStudent.run (concat (blockEvents <$> blocks)) (∅, T) = (∅, T')
      ∧ ∀ u, totalOf T' u
             = totalOf T u
               + sumZ (blockAmount <$> filter (λ b, blockUser b = u) blocks).
Proof.
  induction blocks as [|b blocks IH]; intros T H.
  - exists T. split; [done|]. intros u. simpl. lia.
  - apply Forall_cons in H as [Hb H].
    rewrite fmap_cons. cbn [concat]. rewrite student_run_app.
    rewrite block_run by (done || apply lookup_empty).
    match goal with
    | |- context [PerStudent.run _ (∅, ?T1)] =>
        destruct (IH T1 H) as (T' & Hrun & Hsum)
    end.
    exists T'. split; [done|].
    intros u. rewrite Hsum, totalOf_block, filter_cons.
    case_decide; [rewrite fmap_cons; simpl|]; lia.
Qed.

End Additivity.

(** X2. A stream made of complete sessions, one after the other (each
    one [started], any actions but [finished] on the same key, then
    [finished]), leaves no session open and gives every student the sum
    of what each of its sessions is worth on its own:
    [max (0, end - start - pauses)] when [end > start], nothing
    otherwise. *)
Theorem X2_complete_sessions_add_up (blocks : list Block) (u : Z) :
  Forall blockOk blocks →
  let events := concat (blockEvents <$> blocks) in
  (PerStudent.run events (∅, JS.empty)).1 = ∅
  ∧ totalOf (PerStudent.processEvents events) u
    = sumZ (blockAmount <$> filter (λ b, blockUser b = u) blocks).
Proof.
  intros H events.
  destruct (blocks_run blocks JS.empty H) as (T' & Hrun & Hsum).
  unfold PerStudent.processEvents. subst events. rewrite Hrun. split; [done|].
  simpl. by rewrite Hsum.
Qed.

Lemma X2_complete_sessions_witness :
  totalOf
    (PerStudent.processEvents
       [started 1 7 "a" 10; mkEvent 1 7 "a" "paused" 20;
        mkEvent 1 7 "a" "unpaused" 25; finished 1 7 "a" 40;
        started 2 7 "a" 50; finished 2 7 "a" 60;
        started 1 7 "b" 100; finished 1 7 "b" 130]) 1
  = 55.
Proof.
  apply (X2_complete_sessions_add_up
           [mkBlock 1 7 "a" 10 [("paused", 20); ("unpaused", 25)] 40;
            mkBlock 2 7 "a" 50 [] 60; mkBlock 1 7 "b" 100 [] 130] 1).
  repeat constructor; done.
Defined.

(** ** Where the two student computations agree *)

Section Agreement.

Implicit Types (S : gmap string Session) (T : JS.object Z) (e : Event).




End Agreement.



(** ** Totals are never negative *)

Section NonNegative.

Implicit Types (S : gmap string Session) (T : JS.object Z) (e : Event).

Definition nonneg (T : JS.object Z) : Prop := Forall (λ kv, 0 ≤ kv.2) T.

Lemma get_Some_elem_of {V : Type} (k : string) (v : V) (o : JS.object V) :
  JS.get k o = Some v → (k, v) ∈ o.
Proof.
  induction o as [|[k0 v0] o IH]; simpl; [done|].
  case_decide as Hk.
  - intros [= ->]. subst. left.
  - intros H. right. by apply IH.
Qed.

Lemma nonneg_set (k : string) (v : Z) T : nonneg T → 0 ≤ v → nonneg (JS.set k v T).
Proof.
  unfold nonneg. intros H Hv. induction H as [|[k0 v0] o Hx Ho IH]; simpl.
  - by constructor.
  - case_decide; constructor; done.
Qed.

Lemma nonneg_credit (k : string) (m : Z) T : nonneg T → 0 ≤ m → nonneg (credit k m T).
Proof.
  intros HT Hm. unfold credit.
  set (T0 := if negb (JS.truthy_prop (JS.get k T)) then JS.set k 0 T else T).
  assert (nonneg T0) as H0.
  { subst T0. destruct (negb _); [by apply nonneg_set | done]. }
  unfold JS.add_assign. destruct (JS.get k T0) as [v|] eqn:E; [|done].
  apply nonneg_set; [done|].
  apply get_Some_elem_of in E.
  pose proof (proj1 (Forall_forall _ _) H0 _ E) as Hv. simpl in Hv. lia.
Qed.

Lemma student_run_nonneg (events : list Event) :
  ∀ st, nonneg st.2 → nonneg (PerStudent.run events st).2.
Proof.
  induction events as [|e events IH]; intros [S T] H; [done|].
  unfold PerStudent.run. cbn [fold_left]. apply IH.
  destruct (student_totals_step e S T) as [->|(m & Hm & ->)]; [done|].
  by apply nonneg_credit.
Qed.

Lemma combined_run_nonneg (f : IdField) (events : list Event) :
  ∀ st, nonneg st.2 → nonneg (Combined.run events f st).2.
Proof.
  induction events as [|e events IH]; intros [S T] H; [done|].
  unfold Combined.run. cbn [fold_left]. apply IH.
  destruct (combined_totals_step e S T f) as [->|(m & Hm & ->)]; [done|].
  by apply nonneg_credit.
Qed.

End NonNegative.

(** X4. Whatever the stream, with timestamps in any order, no total is
    ever negative, in [perStudent.js] and in [combined.js] on either
    dimension; so the clock string of a total is always defined as long
    as the total stays below the end of year 9999. *)
Theorem X4_totals_never_negative (events : list Event) (f : IdField) (k : string) (v : Z) :
  ((k, v) ∈ PerStudent.processEvents events ∨ (k, v) ∈ Combined.processEvents events f) →
  0 ≤ v ∧ (v < 253402300800 → JS.isoTimeOfDay v = Some (JS.timeOfDay v)).
Proof.
  intros H.
  assert (0 ≤ v) as Hv.
  { destruct H as [H|H].
    - apply (proj1 (Forall_forall _ _)
               (student_run_nonneg events (∅, JS.empty) (Forall_nil_2 _)) _ H).
    - apply (proj1 (Forall_forall _ _)
               (combined_run_nonneg f events (∅, JS.empty) (Forall_nil_2 _)) _ H). }
  split; [done|]. intros Hlt. unfold JS.isoTimeOfDay.
  destruct (Z.leb_spec (-62167219200) v); [|lia].
  destruct (Z.ltb_spec v 253402300800); [done | lia].
Qed.

Lemma X4_totals_never_negative_witness :
  0 ≤ 0 ∧ (0 < 253402300800 → JS.isoTimeOfDay 0 = Some (JS.timeOfDay 0)).
Proof.
  apply (X4_totals_never_negative
           [started 1 7 "t" 100; paused 1 7 "t" 105; unpaused 1 7 "t" 130;
            finished 1 7 "t" 120] userIdField "1" 0).
  left. vm_compute. left.
Defined.

(** ** The clock string *)

Section Clock.

Lemma string_length_app (s t : string) :
  String.length (s ++ t) = (String.length s + String.length t)%nat.
Proof.
  induction s as [|a s IH]; [done|].
  change (S (String.length (s ++ t)) = S (String.length s + String.length t)).
  by rewrite IH.
Qed.

Lemma pad2_length (n : Z) : 0 ≤ n < 60 → String.length (JS.pad2 n) = 2%nat.
Proof.
  intros Hn.
  assert (forallb (λ m, Nat.eqb (String.length (JS.pad2 (Z.of_nat m))) 2) (seq 0 60)
          = true) as Hall by (vm_compute; reflexivity).
  rewrite forallb_forall in Hall.
  specialize (Hall (Z.to_nat n)). rewrite Z2Nat.id in Hall by lia.
  apply Nat.eqb_eq, Hall, in_seq. lia.
Qed.

Lemma timeOfDay_length (t : Z) : String.length (JS.timeOfDay t) = 8%nat.
Proof.
  unfold JS.timeOfDay. rewrite !string_length_app.
  rewrite !pad2_length; [done | | |].
  - apply Z.mod_pos_bound. lia.
  - apply Z.mod_pos_bound. lia.
  - pose proof (Z.mod_pos_bound (t / 3600) 24). lia.
Qed.

Lemma timeOfDay_wrap (t : Z) : JS.timeOfDay (t mod 86400) = JS.timeOfDay t.
Proof.
  unfold JS.timeOfDay.
  assert ((t mod 86400 / 3600) mod 24 = (t / 3600) mod 24) as ->
    by (Z.div_mod_to_equations; lia).
  assert ((t mod 86400 / 60) mod 60 = (t / 60) mod 60) as ->
    by (Z.div_mod_to_equations; lia).
  assert ((t mod 86400) mod 60 = t mod 60) as ->
    by (Z.div_mod_to_equations; lia).
  done.
Qed.

Lemma entries_singleton {V : Type} (k : string) (v : V) : JS.entries [(k, v)] = [(k, v)].
Proof.
  unfold JS.entries, JS.indexProps, JS.namedProps. rewrite filter_cons. simpl.
  by destruct (JS.arrayIndex k).
Qed.

End Clock.

(** X6. The clock string has eight characters and wraps at 24 hours:
    two totals between 0 and the end of year 9999 that differ by a
    multiple of 86400 seconds are rendered alike, so a record does not
    tell a total of one hour from a total of 25 hours. *)
Theorem X6_clock_wraps_at_24_hours (k : string) (t t' : Z) :
  0 ≤ t < 253402300800 → 0 ≤ t' < 253402300800 →
  t mod 86400 = t' mod 86400 →
  PerStudent.formatTimeOnTaskResult [(k, t)] = PerStudent.formatTimeOnTaskResult [(k, t')]
  ∧ ∃ s, JS.isoTimeOfDay t = Some s ∧ String.length s = 8%nat.
Proof.
  intros Ht Ht' Hmod.
  assert (∀ x, 0 ≤ x < 253402300800 → JS.isoTimeOfDay x = Some (JS.timeOfDay x)) as Hiso.
  { intros x Hx. unfold JS.isoTimeOfDay.
    destruct (Z.leb_spec (-62167219200) x); [|lia].
    destruct (Z.ltb_spec x 253402300800); [done | lia]. }
  split.
  - unfold PerStudent.formatTimeOnTaskResult. rewrite !entries_singleton. simpl.
    rewrite !Hiso by done.
    by rewrite <- (timeOfDay_wrap t), <- (timeOfDay_wrap t'), Hmod.
  - exists (JS.timeOfDay t). split; [by apply Hiso | apply timeOfDay_length].
Qed.

Lemma X6_clock_wraps_witness :
  PerStudent.formatTimeOnTaskResult [("1", 3600)]
  = PerStudent.formatTimeOnTaskResult [("1", 90000)].
Proof.
  apply (X6_clock_wraps_at_24_hours "1" 3600 90000); [lia | lia | done].
Defined.

(** ** Where an open session comes from *)

Section OpenSessions.

Implicit Types (S : gmap string Session) (T : JS.object Z) (e : Event).

Lemma student_step_open e S T (k : string) (s : Session) :
  (PerStudent.processEvent e (S, T)).1 !! k = Some s →
  (∃ s0, S !! k = Some s0 ∧ startTime s0 = startTime s
         ∧ ¬ (onKey k e ∧ action e = "finished"))
  ∨ (S !! k = None ∧ onKey k e ∧ action e = "started"
     ∧ startTime s = client_time e).
Proof.
  unfold onKey, PerStudent.processEvent.
  set (key := sessionKey (userId e) (taskId e)).
  destruct (decide (action e = "started")) as [Ha|Hns].
  { simpl. unfold PerStudent.startSession.
    destruct (S !! key) as [s0|] eqn:E.
    - intros Hs. left. exists s. split_and!; [done | done |].
      intros [_ Hf]. congruence.
    - rewrite lookup_insert. case_decide as Hk.
      + intros [= <-]. right. subst k. done.
      + intros Hs. left. exists s. split_and!; [done | done |].
        intros [_ Hf]. congruence. }
  destruct (decide (action e = "paused")) as [Ha|Hnp].
  { simpl. unfold PerStudent.pauseSession.
    destruct (S !! key) as [s0|] eqn:E.
    - destruct (isPaused s0); simpl.
      + intros Hs. left. exists s. split_and!; [done | done |].
        intros [_ Hf]. congruence.
      + rewrite lookup_insert. case_decide as Hk.
        * intros [= <-]. left. exists s0. subst k. split_and!; [done | done |].
          intros [_ Hf]. congruence.
        * intros Hs. left. exists s. split_and!; [done | done |].
          intros [_ Hf]. congruence.
    - intros Hs. left. exists s. split_and!; [done | done |].
      intros [_ Hf]. congruence. }
  destruct (decide (action e = "unpaused")) as [Ha|Hnu].
  { simpl. unfold PerStudent.unpauseSession.
    destruct (S !! key) as [s0|] eqn:E.
    - destruct (isPaused s0); simpl.
      + destruct (pauseStartTime s0).
        * rewrite lookup_insert. case_decide as Hk.
          -- intros [= <-]. left. exists s0. subst k. split_and!; [done | done |].
             intros [_ Hf]. congruence.
          -- intros Hs. left. exists s. split_and!; [done | done |].
             intros [_ Hf]. congruence.
        * intros Hs. left. exists s. split_and!; [done | done |].
          intros [_ Hf]. congruence.
      + intros Hs. left. exists s. split_and!; [done | done |].
        intros [_ Hf]. congruence.
    - intros Hs. left. exists s. split_and!; [done | done |].
      intros [_ Hf]. congruence. }
  destruct (decide (action e = "finished")) as [Ha|Hnf].
  { unfold PerStudent.finishSession.
    destruct (S !! key) as [s0|] eqn:E; simpl.
    - rewrite lookup_delete. case_decide as Hk; [done|].
      intros Hs. left. exists s. split_and!; [done | done |].
      intros [Hk' _]. congruence.
    - intros Hs. left. exists s. split_and!; [done | done |].
      intros [Hk' _]. congruence. }
  simpl. intros Hs. left. exists s. split_and!; [done | done |].
  intros [_ Hf]. congruence.
Qed.

Lemma student_open_origin (events : list Event) :
  ∀ (k : string) (s : Session),
    (PerStudent.run events (∅, JS.empty)).1 !! k = Some s →
    ∃ pre e post,
      events = (pre ++ e :: post)%list
      ∧ action e = "started" ∧ onKey k e ∧ client_time e = startTime s
      ∧ (PerStudent.run pre (∅, JS.empty)).1 !! k = None
      ∧ ∀ e', e' ∈ post → ¬ (onKey k e' ∧ action e' = "finished").
Proof.
  induction events as [|e events IH] using rev_ind; intros k s Hs.
  - simpl in Hs. by rewrite lookup_empty in Hs.
  - unfold PerStudent.run in Hs. rewrite fold_left_app in Hs. cbn [fold_left] in Hs.
    fold (PerStudent.run events (∅, JS.empty)) in Hs.
    destruct (PerStudent.run events (∅, JS.empty)) as [S T] eqn:E.
    apply student_step_open in Hs
      as [(s0 & Hs0 & Hst & Hnf)|(Hnone & Hon & Ha & Hst)].
    + destruct (IH k s0 Hs0) as (pre & e0 & post & -> & Ha0 & Hon0 & Ht0 & Hpre & Hpost).
      exists pre, e0, (post ++ [e])%list.
      split_and!; [by rewrite <- app_assoc | done | done | congruence | done |].
      intros e' He'. apply elem_of_app in He' as [He'|He']; [by apply Hpost|].
      apply list_elem_of_singleton in He'. by subst.
    + exists events, e, []. rewrite E.
      split_and!; [done | done | done | done | done |].
      intros e' He'. by apply elem_of_nil in He'.
Qed.

End OpenSessions.

(** X7. Every session still open after a stream was opened by a
    [started] event of the stream on its key: its [startTime] is the
    timestamp of that event, no session was open on the key just before
    it, and no [finished] on the key follows it. *)
Theorem X7_open_session_origin (events : list Event) (k : string) (s : Session) :
  (PerStudent.run events (∅, JS.empty)).1 !! k = Some s →
  ∃ pre e post,
    events = (pre ++ e :: post)%list
    ∧ action e = "started" ∧ onKey k e ∧ client_time e = startTime s
    ∧ (PerStudent.run pre (∅, JS.empty)).1 !! k = None
    ∧ ∀ e', e' ∈ post → ¬ (onKey k e' ∧ action e' = "finished").
Proof. apply student_open_origin. Qed.

Lemma X7_open_session_origin_witness :
  ∃ pre e post,
    [started 1 7 "t" 5; finished 1 7 "t" 9; started 1 7 "t" 20; paused 1 7 "t" 30]
    = (pre ++ e :: post)%list
    ∧ action e = "started" ∧ onKey "1-t" e ∧ client_time e = 20
    ∧ (PerStudent.run pre (∅, JS.empty)).1 !! "1-t" = None
    ∧ ∀ e', e' ∈ post → ¬ (onKey "1-t" e' ∧ action e' = "finished").
Proof.
  apply (X7_open_session_origin
           [started 1 7 "t" 5; finished 1 7 "t" 9; started 1 7 "t" 20;
            paused 1 7 "t" 30] "1-t" (mkSession 20 0 true (Some 30))).
  vm_compute. reflexivity.
Defined.

(** ** The actions the loops act on *)

Section Vocabulary.

Lemma student_step_unlisted (e : Event) st :
  action e ∉ PerStudent.whitelist → PerStudent.processEvent e st = st.
Proof.
  unfold PerStudent.whitelist. intros H. destruct st as [S T].
  unfold PerStudent.processEvent.
  repeat case_decide; try done; exfalso; apply H;
    match goal with Ha : action e = _ |- _ => rewrite Ha end;
    repeat constructor.
Qed.

Lemma combined_step_unlisted (e : Event) st (f : IdField) :
  action e ∉ Combined.whitelist → Combined.processEvent e st f = st.
Proof.
  unfold Combined.whitelist. intros H. destruct st as [S T].
  unfold Combined.processEvent.
  repeat case_decide; try done; exfalso; apply H;
    match goal with Ha : action e = _ |- _ => rewrite Ha end;
    repeat constructor.
Qed.

Lemma class_step_unlisted (e : Event) st :
  action e ∉ PerClass.whitelist → PerClass.processEvent e st = st.
Proof.
  unfold PerClass.whitelist. intros H. destruct st as [S T].
  unfold PerClass.processEvent.
  repeat case_decide; try done; exfalso; apply H;
    match goal with Ha : action e = _ |- _ => rewrite Ha end;
    repeat constructor.
Qed.

End Vocabulary.

(** X8. The loops act on the actions of the query's list and on no
    other: an event with another action leaves both tables as they are,
    so keeping only the listed actions of a stream changes nothing.  In
    particular [combined.js] and [perClass.js] pass over [paused] and
    [unpaused] events. *)
Theorem X8_unlisted_actions_are_ignored (events : list Event) (f : IdField)
    (st : gmap string Session * JS.object Z) :
  PerStudent.run (filter (λ e, action e ∈ PerStudent.whitelist) events) st
  = PerStudent.run events st
  ∧ Combined.run (filter (λ e, action e ∈ Combined.whitelist) events) f st
    = Combined.run events f st
  ∧ PerClass.run (filter (λ e, action e ∈ PerClass.whitelist) events) st
    = PerClass.run events st.
Proof.
  split_and!.
  - revert st. induction events as [|e events IH]; intros st; [done|].
    rewrite filter_cons. unfold PerStudent.run in *. case_decide; cbn [fold_left].
    + apply IH.
    + rewrite student_step_unlisted by done. apply IH.
  - revert st. induction events as [|e events IH]; intros st; [done|].
    rewrite filter_cons. unfold Combined.run in *. case_decide; cbn [fold_left].
    + apply IH.
    + rewrite combined_step_unlisted by done. apply IH.
  - revert st. induction events as [|e events IH]; intros st; [done|].
    rewrite filter_cons. unfold PerClass.run in *. case_decide; cbn [fold_left].
    + apply IH.
    + rewrite class_step_unlisted by done. apply IH.
Qed.

(** ** The entry points *)

Lemma class_combined_run_agree (events : list Event) :
  ∀ st, Combined.run events classIdField st = PerClass.run events st.
Proof.
  induction events as [|e events IH]; intros st; [done|].
  unfold Combined.run, PerClass.run in *. cbn [fold_left].
  rewrite IH. by destruct st.
Qed.

(** X9. What [node combined.js] reports for the classes is what
    [node src/perClass.js] reports: on the same events, the
    [classTimeOnTask] of [calculateTimeOnTask] and the result of
    [calculateTimeOnTaskPerClass] hold the same records in the same
    order. *)
Theorem X9_class_entry_points_agree (events : list Event) :
  (λ r, (Combined.id r, Combined.totalTimeOnTask r))
    <$> Combined.classTimeOnTask (Combined.calculateTimeOnTask events)
  = (λ r, (PerClass.id r, PerClass.totalTimeOnTask r))
      <$> PerClass.calculateTimeOnTaskPerClass events.
Proof.
  unfold Combined.calculateTimeOnTask, PerClass.calculateTimeOnTaskPerClass. simpl.
  unfold Combined.processEvents, PerClass.processEvents.
  rewrite class_combined_run_agree.
  unfold Combined.formatTimeOnTaskResult, PerClass.formatTimeOnTaskResult.
  rewrite <- !list_fmap_compose.
  apply Forall_fmap_ext_1, Forall_forall. by intros [k v] _.
Qed.

(** ** Classes do not interfere either *)

Section CombinedIndependence.

Implicit Types (S : gmap string Session) (T : JS.object Z) (e : Event).

Lemma combined_step_frame e S T (f : IdField) (k : string) :
  sessionKey (eventField e f) (taskId e) ≠ k →
  (Combined.processEvent e (S, T) f).1 !! k = S !! k.
Proof.
  intros Hne. unfold Combined.processEvent.
  set (key := sessionKey (eventField e f) (taskId e)) in *.
  repeat case_decide; simpl; try done.
  - unfold Combined.startSession. destruct (S !! key); [done|].
    by rewrite lookup_insert_ne.
  - unfold Combined.pauseSession. destruct (S !! key) as [s|]; [|done].
    destruct (isPaused s); simpl; [done|]. by rewrite lookup_insert_ne.
  - unfold Combined.unpauseSession. destruct (S !! key) as [s|]; [|done].
    destruct (isPaused s); [|done]. destruct (pauseStartTime s); [|done].
    by rewrite lookup_insert_ne.
  - unfold Combined.finishSession. destruct (S !! key) as [s|]; [|done].
    simpl. by rewrite lookup_delete_ne.
Qed.

Lemma combined_step_same_id e (f : IdField) (i : Z) st st' :
  eventField e f = i → sameForUser i st st' →
  sameForUser i (Combined.processEvent e st f) (Combined.processEvent e st' f).
Proof.
  destruct st as [S T], st' as [S' T']. intros <- [Hs Ht]. simpl in Hs, Ht.
  pose proof (Hs (taskId e)) as Hk.
  unfold Combined.processEvent.
  set (key := sessionKey (eventField e f) (taskId e)) in *.
  repeat case_decide; try (by split).
  - unfold Combined.startSession. rewrite <- Hk.
    destruct (S !! key); split; simpl; auto using same_insert.
  - unfold Combined.pauseSession. rewrite <- Hk.
    destruct (S !! key) as [s|]; [|by split].
    destruct (isPaused s); split; simpl; auto using same_insert.
  - unfold Combined.unpauseSession. rewrite <- Hk.
    destruct (S !! key) as [s|]; [|by split].
    destruct (isPaused s); [|by split].
    destruct (pauseStartTime s); split; simpl; auto using same_insert.
  - destruct (S !! key) as [s|] eqn:E.
    + rewrite (combined_finish_open key _ S T _ s E).
      rewrite (combined_finish_open key _ S' T' _ s) by congruence.
      split; simpl; [by apply same_delete|].
      destruct (_ && _); [|done].
      rewrite !totalOf_credit, !decide_True by done. by rewrite Ht.
    + rewrite (combined_finish_orphan key _ S T _ E).
      rewrite (combined_finish_orphan key _ S' T') by congruence.
      by split.
Qed.

Lemma combined_step_other_id e (f : IdField) (i : Z) st st' :
  eventField e f ≠ i → sameForUser i st st' →
  sameForUser i (Combined.processEvent e st f) st'.
Proof.
  destruct st as [S T], st' as [S' T']. intros Hne [Hs Ht]. simpl in Hs, Ht.
  split.
  - intros task. rewrite <- Hs. apply combined_step_frame.
    intros Hk. apply sessionKey_inj in Hk as [Hu _]. done.
  - change (totalOf (Combined.processEvent e (S, T) f).2 i = totalOf T' i).
    rewrite <- Ht.
    destruct (combined_totals_step e S T f) as [->|(m & _ & ->)]; [done|].
    rewrite totalOf_credit. rewrite decide_False; [done | congruence].
Qed.

Lemma combined_run_same_id (f : IdField) (i : Z) (events : list Event) :
  ∀ st st', sameForUser i st st' →
    sameForUser i (Combined.run events f st)
      (Combined.run (filter (λ e, eventField e f = i) events) f st').
Proof.
  induction events as [|e events IH]; intros st st' H; [done|].
  rewrite filter_cons. unfold Combined.run. cbn [fold_left].
  case_decide.
  - cbn [fold_left]. by apply IH, combined_step_same_id.
  - by apply IH, combined_step_other_id.
Qed.

End CombinedIndependence.

(** X10. In [combined.js], on either dimension, the total of an entity
    (a class, or a student) depends on the events of that entity only:
    removing the events of the others from the stream leaves its total,
    and its open sessions, as they were. *)
Theorem X10_combined_total_independent (f : IdField) (i : Z) (events : list Event) :
  let own := filter (λ e, eventField e f = i) events in
  totalOf (Combined.processEvents events f) i = totalOf (Combined.processEvents own f) i
  ∧ (∀ task, (Combined.run events f (∅, JS.empty)).1 !! sessionKey i task
             = (Combined.run own f (∅, JS.empty)).1 !! sessionKey i task).
Proof.
  intros own.
  destruct (combined_run_same_id f i events (∅, JS.empty) (∅, JS.empty)) as [Hs Ht];
    [by split|].
  by split.
Qed.

(** ** Two students of one class on one task *)

Section SharedClassSession.



End SharedClassSession.



(** ** Streams whose timestamps never go back *)

Section Monotone.

Implicit Types (S : gmap string Session) (T : JS.object Z) (e : Event).

Lemma timely_later (now later : Z) (s : Session) :
  now ≤ later → timely now s → timely later s.
Proof.
  unfold timely. intros Hle [Hp H]. split; [done|].
  destruct (isPaused s); [|lia].
  destruct H as (p & Hq & H1 & H2). exists p. split_and!; [done | done | lia].
Qed.

Lemma student_step_timely e S T (now : Z) :
  now ≤ client_time e →
  (∀ k s, S !! k = Some s → timely now s) →
  ∀ k s, (PerStudent.processEvent e (S, T)).1 !! k = Some s →
         timely (client_time e) s.
Proof.
  intros Hnow Hinv.
  assert (∀ k s, S !! k = Some s → timely (client_time e) s) as Hinv'.
  { intros k s Hs. by apply (timely_later now), (Hinv k). }
  unfold PerStudent.processEvent.
  set (key := sessionKey (userId e) (taskId e)).
  repeat case_decide; simpl; try done.
  - unfold PerStudent.startSession. destruct (S !! key) as [s0|]; [done|].
    intros k s. rewrite lookup_insert. case_decide; [|apply Hinv'].
    intros [= <-]. unfold timely. simpl. lia.
  - unfold PerStudent.pauseSession. destruct (S !! key) as [s0|] eqn:E; [|done].
    destruct (isPaused s0) eqn:Hp; simpl; [done|].
    intros k s. rewrite lookup_insert. case_decide; [|apply Hinv'].
    intros [= <-]. destruct (Hinv key s0 E) as [Hpos Hfit]. rewrite Hp in Hfit.
    unfold timely. simpl. split; [done|]. eexists. split_and!; [done | lia | lia].
  - unfold PerStudent.unpauseSession. destruct (S !! key) as [s0|] eqn:E; [|done].
    destruct (isPaused s0) eqn:Hp; [|done].
    destruct (Hinv key s0 E) as [Hpos Hfit]. rewrite Hp in Hfit.
    destruct Hfit as (p & Hq & Hfit1 & Hfit2). rewrite Hq.
    intros k s. rewrite lookup_insert. case_decide; [|apply Hinv'].
    intros [= <-]. unfold timely. simpl. lia.
  - unfold PerStudent.finishSession. destruct (S !! key) as [s0|]; [|done]. simpl.
    intros k s. rewrite lookup_delete. case_decide; [done | apply Hinv'].
Qed.

Lemma student_run_timely (events : list Event) :
  ∀ st (now later : Z),
    monotone events →
    Forall (λ e, now ≤ client_time e ≤ later) events → now ≤ later →
    (∀ k s, st.1 !! k = Some s → timely now s) →
    ∀ k s, (PerStudent.run events st).1 !! k = Some s → timely later s.
Proof.
  unfold monotone.
  induction events as [|e events IH]; intros [S T] now later Hm Hb Hle Hinv k s.
  - simpl. intros Hs. by apply (timely_later now), (Hinv k).
  - apply StronglySorted_inv in Hm as [Hm He]. apply Forall_cons in Hb as [Hb1 Hb].
    unfold PerStudent.run. cbn [fold_left]. fold (PerStudent.run events).
    destruct (PerStudent.processEvent e (S, T)) as [S1 T1] eqn:E.
    apply (IH (S1, T1) (client_time e) later); [done | | lia |].
    + apply Forall_forall. intros e' He'.
      pose proof (proj1 (Forall_forall _ _) He e' He').
      pose proof (proj1 (Forall_forall _ _) Hb e' He'). simpl in *. lia.
    + intros k' s' Hs'. simpl in Hs'.
      apply (student_step_timely e S T now) with (k := k'); [lia | done |].
      by rewrite E.
Qed.

End Monotone.

(** X12. On a stream of whole-second timestamps (integers from 0 to
    2^53, which JavaScript numbers hold and subtract exactly) that never
    go back, the floor at zero never applies and a session is never worth
    more than its span: when a [finished] event meets an open session,
    the pauses accumulated in it are non-negative and no longer than the
    span, so the duration [clientTime - startTime - pausedTime] lies
    between 0 and [clientTime - startTime].  (With fractional timestamps
    the rounding of the additions can push [pausedTime] past the span;
    they are outside the model.) *)
Theorem X12_monotone_stream_needs_no_floor (pre : list Event) (e : Event) (s : Session) :
  Forall (λ e', 0 ≤ client_time e' < 2 ^ 53) (pre ++ [e]) →
  monotone (pre ++ [e]) →
  (PerStudent.run pre (∅, JS.empty)).1 !! sessionKey (userId e) (taskId e) = Some s →
  0 ≤ pausedTime s
  ∧ 0 ≤ client_time e - startTime s - pausedTime s ≤ client_time e - startTime s.
Proof.
  intros _ Hm Hs.
  destruct pre as [|e0 pre]; [simpl in Hs; by rewrite lookup_empty in Hs|].
  unfold monotone in Hm.
  pose proof (StronglySorted_app_1_l _ _ _ Hm) as Hpre.
  assert (Forall (λ e', client_time e0 ≤ client_time e' ≤ client_time e) (e0 :: pre))
    as Hb.
  { apply Forall_forall. intros e' He'.
    assert (client_time e' ≤ client_time e) as H2.
    { apply (StronglySorted_app_1_elem_of _ _ _ e' e Hm); [done | left]. }
    split; [|done].
    apply elem_of_cons in He' as [->|He']; [done|].
    apply StronglySorted_inv in Hpre as [_ H0].
    apply (proj1 (Forall_forall _ _) H0 e' He'). }
  assert (client_time e0 ≤ client_time e) as Hle.
  { apply (proj1 (Forall_forall _ _) Hb e0). left. }
  pose proof (student_run_timely (e0 :: pre) (∅, JS.empty) (client_time e0)
                (client_time e) Hpre Hb Hle) as Ht.
  destruct (Ht (λ k s' H, ltac:(simpl in H; by rewrite lookup_empty in H)) _ s Hs)
    as [Hpos Hfit].
  split; [done|].
  destruct (isPaused s); [|lia].
  destruct Hfit as (p & _ & Hfit1 & Hfit2). lia.
Qed.

Lemma X12_monotone_stream_witness :
  0 ≤ 5 ∧ 0 ≤ 20 - 0 - 5 ≤ 20 - 0.
Proof.
  apply (X12_monotone_stream_needs_no_floor
           [started 1 7 "t" 0; paused 1 7 "t" 10; unpaused 1 7 "t" 15]
           (finished 1 7 "t" 20) (mkSession 0 5 false (Some 10))).
  - repeat constructor; simpl; lia.
  - unfold monotone. repeat constructor; simpl; lia.
  - vm_compute. reflexivity.
Defined.
